(** * howto: provider registry, dispatcher and response sanitizers

    A shallow embedding of the Go packages [internal/prompt] and
    [internal/provider] of techquestsdev/howto, and the properties of the
    specification checked against it.

    Go strings are byte sequences: they are modelled as [list ascii]
    ([gostring]).  The functions of Go's [strings] package that the code calls
    are modelled in [Module strings], each by its documented behaviour on the
    arguments the code passes.

    The five provider descriptors are package-level pointers that the lookup
    functions write through: they are modelled as references into a store
    that is passed along.  What the code gets from outside is data of the
    model: the environment, the search path and the subprocess runs are a
    [Host]; the HTTP exchange and the JSON codec are a [Net];
    [time.ParseDuration] is an argument of [GetTimeout].  An error is one
    constructor for each message of the code, with the kind the
    specification gives it. *)

From Stdlib Require Import ZArith List Ascii String DecimalString Bool Lia.
From stdpp Require Import base option list gmap strings.
Import ListNotations.

Local Open Scope list_scope.

(** ** Go strings *)

Abbreviation gostring := (list ascii).

(** A string literal of the source. *)
Definition str (s : string) : gostring := list_ascii_of_string s.

(** The line break, written ["\n"] in the source. *)
Definition LF : gostring := ["010"%char].
Definition SP : gostring := [" "%char].

Definition gostring_eqb (a b : gostring) : bool := bool_decide (a = b).

Module strings.

(** [strings.HasPrefix]. *)
Fixpoint HasPrefix (s prefix : gostring) {struct prefix} : bool :=
  match prefix, s with
  | [], _ => true
  | _ :: _, [] => false
  | p :: prefix', c :: s' => Ascii.eqb c p && HasPrefix s' prefix'
  end.

(** [strings.TrimPrefix]. *)
Definition TrimPrefix (s prefix : gostring) : gostring :=
  if HasPrefix s prefix then drop (length prefix) s else s.

(** [strings.Contains], for a non-empty [substr]. *)
Fixpoint Contains (s substr : gostring) : bool :=
  HasPrefix s substr ||
  match s with
  | [] => false
  | _ :: s' => Contains s' substr
  end.

(** [strings.Split] for a non-empty separator: the pieces between the
    non-overlapping occurrences of [sep], found left to right.  [skip]
    counts the bytes of a separator still to be passed over, [cur] holds the
    piece being read, latest byte first. *)
Fixpoint splitGo (sep : gostring) (skip : nat) (cur s : gostring)
  : list gostring :=
  match s with
  | [] => [rev cur]
  | c :: r =>
      match skip with
      | S k => splitGo sep k cur r
      | O =>
          if HasPrefix s sep
          then rev cur :: splitGo sep (length sep - 1) [] r
          else splitGo sep 0 (c :: cur) r
      end
  end.

Definition Split (s sep : gostring) : list gostring := splitGo sep 0 [] s.

(** [strings.Join]. *)
Fixpoint Join (elems : list gostring) (sep : gostring) : gostring :=
  match elems with
  | [] => []
  | [e] => e
  | e :: rest => e ++ sep ++ Join rest sep
  end.

(** [strings.ReplaceAll] for a non-empty [old]: every non-overlapping
    occurrence of [old], found left to right, becomes [new]. *)
Fixpoint replaceGo (old new : gostring) (skip : nat) (s : gostring)
  : gostring :=
  match s with
  | [] => []
  | c :: r =>
      match skip with
      | S k => replaceGo old new k r
      | O =>
          if HasPrefix s old
          then new ++ replaceGo old new (length old - 1) r
          else c :: replaceGo old new 0 r
      end
  end.

Definition ReplaceAll (s old new : gostring) : gostring :=
  replaceGo old new 0 s.

(** [strings.Trim] for a cutset of ASCII bytes: leading and trailing bytes
    that belong to the cutset are removed. *)
Definition inCutset (cutset : gostring) (c : ascii) : bool :=
  existsb (Ascii.eqb c) cutset.

Fixpoint trimLeftBytes (cutset s : gostring) : gostring :=
  match s with
  | [] => []
  | c :: r => if inCutset cutset c then trimLeftBytes cutset r else s
  end.

Definition trimRightBytes (cutset s : gostring) : gostring :=
  rev (trimLeftBytes cutset (rev s)).

Definition Trim (s cutset : gostring) : gostring :=
  trimLeftBytes cutset (trimRightBytes cutset s).

(** The UTF-8 encodings of the runes for which [unicode.IsSpace] holds:
    the six ASCII ones, U+0085, U+00A0, U+1680, U+2000 to U+200A, U+2028,
    U+2029, U+202F, U+205F and U+3000. *)
Definition spaceRunes : list gostring :=
  [ ["009"]; ["010"]; ["011"]; ["012"]; ["013"]; ["032"];
    ["194"; "133"]; ["194"; "160"];
    ["225"; "154"; "128"];
    ["226"; "128"; "128"]; ["226"; "128"; "129"]; ["226"; "128"; "130"];
    ["226"; "128"; "131"]; ["226"; "128"; "132"]; ["226"; "128"; "133"];
    ["226"; "128"; "134"]; ["226"; "128"; "135"]; ["226"; "128"; "136"];
    ["226"; "128"; "137"]; ["226"; "128"; "138"];
    ["226"; "128"; "168"]; ["226"; "128"; "169"]; ["226"; "128"; "175"];
    ["226"; "129"; "159"];
    ["227"; "128"; "128"] ]%char.

(** One rune of [table] removed from the front of [s], if [s] starts with
    one. *)
Fixpoint stripRune (table : list gostring) (s : gostring)
  : option gostring :=
  match table with
  | [] => None
  | e :: table' =>
      if HasPrefix s e then Some (drop (length e) s)
      else stripRune table' s
  end.

(** The loop of [strings.TrimLeftFunc]: runes of [table] are removed from
    the front until another rune (or an invalid byte) is met.  Every round
    removes at least one byte, so [length s] rounds are enough. *)
Fixpoint trimRunes (table : list gostring) (fuel : nat) (s : gostring)
  : gostring :=
  match fuel with
  | O => s
  | S fuel' =>
      match stripRune table s with
      | Some r => trimRunes table fuel' r
      | None => s
      end
  end.

Definition trimLeftSpace (s : gostring) : gostring :=
  trimRunes spaceRunes (length s) s.

(** [strings.TrimRightFunc] reads the runes from the end: the same loop on
    the reversed bytes, with the encodings reversed. *)
Definition trimRightSpace (s : gostring) : gostring :=
  rev (trimRunes (map (@rev ascii) spaceRunes) (length s) (rev s)).

(** [strings.TrimSpace]: leading and trailing white space, as defined by
    Unicode, removed. *)
Definition TrimSpace (s : gostring) : gostring :=
  trimRightSpace (trimLeftSpace s).

(** [strings.ToLower] and [strings.ToUpper] on the ASCII letters.  Go maps
    the runes beyond ASCII through the Unicode case tables; the code only
    compares the result with prefixes made of the ASCII letters of the
    language names and a line break, which no rune beyond ASCII maps to. *)
Definition lowerByte (c : ascii) : ascii :=
  let n := nat_of_ascii c in
  if (65 <=? n)%nat && (n <=? 90)%nat then ascii_of_nat (n + 32) else c.

Definition upperByte (c : ascii) : ascii :=
  let n := nat_of_ascii c in
  if (97 <=? n)%nat && (n <=? 122)%nat then ascii_of_nat (n - 32) else c.

Definition ToLower (s : gostring) : gostring := map lowerByte s.
Definition ToUpper (s : gostring) : gostring := map upperByte s.

End strings.

(** ** Package prompt *)

Module prompt.
Import strings.

(** "Remove markdown code blocks": the first and the last line go when the
    text starts with a fence and has more than two lines. *)
Definition removeCodeBlock (cmd : gostring) : gostring :=
  if HasPrefix cmd (str "```") then
    let lines := Split cmd LF in
    if (2 <? length lines)%nat
    then Join (drop 1 (take (length lines - 1) lines)) LF
    else cmd
  else cmd.

Definition languages : list gostring :=
  [str "bash"; str "sh"; str "zsh"; str "shell"; str "cmd";
   str "powershell"].

(** One round of the loop over the language identifiers. *)
Definition removeLanguage (cmd lang : gostring) : gostring :=
  if HasPrefix (ToLower cmd) (lang ++ LF) then
    TrimPrefix (TrimPrefix cmd (lang ++ LF)) (ToUpper lang ++ LF)
  else cmd.

(** [for strings.Contains(cmd, "  ") { cmd = strings.ReplaceAll(cmd, "  ", " ") }];
    every round shortens [cmd], so [length cmd] rounds are enough. *)
Fixpoint collapseSpaces (fuel : nat) (cmd : gostring) : gostring :=
  match fuel with
  | O => cmd
  | S fuel' =>
      if Contains cmd (SP ++ SP)
      then collapseSpaces fuel' (ReplaceAll cmd (SP ++ SP) SP)
      else cmd
  end.

(** [SanitizeCommand] cleans up the AI response to extract just the
    command. *)
Definition SanitizeCommand (cmd : gostring) : gostring :=
  let cmd := TrimSpace cmd in
  let cmd := removeCodeBlock cmd in
  let cmd := Trim cmd (str "`") in
  let cmd := fold_left removeLanguage languages cmd in
  let cmd := ReplaceAll cmd LF SP in
  let cmd := collapseSpaces (length cmd) cmd in
  TrimSpace cmd.

(** [userOS]: the name of the operating system for the prompt; [goos] is
    [runtime.GOOS]. *)
Definition userOS (goos : gostring) : gostring :=
  if gostring_eqb goos (str "darwin") then str "macOS"
  else if gostring_eqb goos (str "linux") then str "Linux"
  else if gostring_eqb goos (str "windows") then str "Windows"
  else goos.

(** The three pieces of the format string of [Generate], around its two
    [%s] verbs. *)
Definition promptHead : gostring :=
  Join [str "You are a command line assistant that helps users with shell commands.";
        str "User wants assistance with the following task:";
        []; []] LF.

Definition promptMiddle : gostring :=
  Join [[]; [];
        str "Instructions:";
        str "- Respond with a single command that achieves the desired result";
        str "- The command should be suitable for "] LF.

Definition promptTail : gostring :=
  Join [str " operating system";
        str "- Output ONLY the command, without any explanation";
        str "- Do not include any quotes, backticks, or markdown formatting";
        str "- If the task requires multiple commands, chain them with && or ;";
        str "- If you're unsure, provide the most common/standard approach";
        []] LF.

(** [Generate] creates the prompt for the AI provider. *)
Definition Generate (goos query : gostring) : gostring :=
  promptHead ++ query ++ promptMiddle ++ userOS goos ++ promptTail.

End prompt.

(** ** Package provider *)

Module provider.
Import strings.

(** *** Data *)

(** [AuthType] defines how the provider authenticates requests. *)
Inductive AuthType := AuthBearer | AuthAPIKey | AuthCLI.

#[global] Instance AuthType_eq_dec : EqDecision AuthType.
Proof. solve_decision. Defined.

(** [Provider] represents an AI provider configuration. *)
Record Provider := mkProvider {
  Name : gostring;
  Endpoint : gostring;
  DefaultModel : gostring;
  EnvVar : gostring;
  authType : AuthType;
  Configured : bool
}.

(** [ProviderInfo] contains provider information for display. *)
Record ProviderInfo := mkProviderInfo {
  infoName : gostring;
  infoDefaultModel : gostring;
  infoEnvVar : gostring;
  infoConfigured : bool
}.

(** The five package-level variables hold pointers to [Provider] values:
    a [ProviderRef] is one of these pointers, and a [Store] gives the value
    each of them points to.  Every function that returns a [*Provider]
    returns one of these pointers, never a copy. *)
Inductive ProviderRef := OpenAI | Anthropic | Gemini | DeepSeek | GitHubCopilot.

#[global] Instance ProviderRef_eq_dec : EqDecision ProviderRef.
Proof. solve_decision. Defined.

Definition Store := ProviderRef -> Provider.

Definition initialStore : Store := fun r =>
  match r with
  | OpenAI =>
      mkProvider (str "OpenAI")
        (str "https://api.openai.com/v1/chat/completions")
        (str "gpt-4o") (str "OPENAI_API_KEY") AuthBearer false
  | Anthropic =>
      mkProvider (str "Anthropic")
        (str "https://api.anthropic.com/v1/messages")
        (str "claude-sonnet-4-20250514") (str "ANTHROPIC_API_KEY")
        AuthAPIKey false
  | Gemini =>
      mkProvider (str "Gemini")
        (str "https://generativelanguage.googleapis.com/v1beta/openai/chat/completions")
        (str "gemini-2.0-flash") (str "GEMINI_API_KEY") AuthBearer false
  | DeepSeek =>
      mkProvider (str "DeepSeek")
        (str "https://api.deepseek.com/chat/completions")
        (str "deepseek-chat") (str "DEEPSEEK_API_KEY") AuthBearer false
  | GitHubCopilot =>
      mkProvider (str "GitHub Copilot") [] (str "gpt-4") [] AuthCLI false
  end.

(** [apiProviders] are providers that use API keys. *)
Definition apiProviders : list ProviderRef :=
  [OpenAI; Anthropic; Gemini; DeepSeek].

(** [p.Configured = true]. *)
Definition setConfigured (st : Store) (p : ProviderRef) : Store := fun r =>
  if bool_decide (r = p) then
    let v := st r in
    mkProvider (Name v) (Endpoint v) (DefaultModel v) (EnvVar v)
      (authType v) true
  else st r.

(** *** The host: environment and subprocesses *)

(** The state of the context when a call has failed. *)
Inductive CtxErr := CtxNone | DeadlineExceeded | Canceled.

(** What [cmd.Run] gives: its error (if any), the captured output, and
    [ctx.Err()] once it has returned. *)
Record RunResult := mkRunResult {
  runErr : option gostring;
  Stdout : gostring;
  Stderr : gostring;
  runCtx : CtxErr
}.

(** The process environment ([os.Getenv] gives the empty string for a
    variable that is not set), [exec.LookPath] and the run of a command. *)
Record Host := mkHost {
  environ : gmap gostring gostring;
  LookPath : gostring -> option gostring;
  Run : gostring -> list gostring -> RunResult
}.

Definition Getenv (h : Host) (key : gostring) : gostring :=
  default [] (environ h !! key).

(** *** Errors *)

(** The errors the package builds, one constructor for each message; a
    wrapped error keeps the text of its cause. *)
Inductive error :=
| ErrRequiresEnv (name envVar : gostring)
| ErrCopilotCLIUnavailable
| ErrUnknownProvider (name : gostring)
| ErrMarshal (cause : gostring)
| ErrCreateRequest (cause : gostring)
| ErrTimedOut
| ErrCanceled
| ErrSend (cause : gostring)
| ErrRead (cause : gostring)
| ErrParse (cause : gostring)
| ErrParseBody (cause body : gostring)
| ErrAPI (message : gostring)
| ErrStatus (code : Z) (body : gostring)
| ErrNoResponse (name : gostring)
| ErrGhNotFound
| ErrCopilotNotWorking
| ErrNotAuthenticated
| ErrSubscription
| ErrCopilotFailed (cause stderr : gostring)
| ErrNoSuggestion.

(** [%d] of an integer. *)
Definition formatInt (z : Z) : gostring :=
  str (NilZero.string_of_int (Z.to_int z)).

(** The text of each error, as [err.Error()] gives it. *)
Definition Error (e : error) : gostring :=
  match e with
  | ErrRequiresEnv name envVar =>
      str "provider " ++ name ++ str " requires " ++ envVar ++ str " to be set"
  | ErrCopilotCLIUnavailable =>
      str "GitHub Copilot CLI not available. Install with: gh extension install github/gh-copilot"
  | ErrUnknownProvider name => str "unknown provider: " ++ name
  | ErrMarshal cause => str "failed to marshal request: " ++ cause
  | ErrCreateRequest cause => str "failed to create request: " ++ cause
  | ErrTimedOut => str "request timed out"
  | ErrCanceled => str "request canceled"
  | ErrSend cause => str "failed to send request: " ++ cause
  | ErrRead cause => str "failed to read response: " ++ cause
  | ErrParse cause => str "failed to parse response: " ++ cause
  | ErrParseBody cause body =>
      str "failed to parse response: " ++ body ++ str ": " ++ cause
  | ErrAPI message => str "API error: " ++ message
  | ErrStatus code body =>
      str "API returned status " ++ formatInt code ++ str ": " ++ body
  | ErrNoResponse name => str "no response from " ++ name
  | ErrGhNotFound =>
      str "GitHub CLI (gh) not found. Install it from https://cli.github.com/"
  | ErrCopilotNotWorking =>
      str "GitHub Copilot CLI not available. Ensure gh copilot works"
  | ErrNotAuthenticated =>
      str "Not authenticated with GitHub. Run: gh auth login"
  | ErrSubscription => str "GitHub Copilot subscription required"
  | ErrCopilotFailed cause stderr =>
      str "gh copilot failed: " ++ stderr ++ str ": " ++ cause
  | ErrNoSuggestion => str "no suggestion from GitHub Copilot"
  end.

(** The error kinds of the specification, and the kind each error of the
    code falls under.  A canceled context and a subprocess failure that
    matches no known cause have no kind of their own. *)
Inductive ErrorKind :=
| Unknown | NotConfigured
| ToolNotFound | ToolNotAvailable | NotAuthenticated | SubscriptionRequired
| SerializationError | TransportError | Timeout | DecodeError | ApiError
| EmptyResponse
| SubprocessFailure.

Definition kind (e : error) : ErrorKind :=
  match e with
  | ErrRequiresEnv _ _ | ErrCopilotCLIUnavailable => NotConfigured
  | ErrUnknownProvider _ => Unknown
  | ErrMarshal _ => SerializationError
  | ErrCreateRequest _ | ErrSend _ | ErrRead _ => TransportError
  | ErrTimedOut => Timeout
  | ErrParse _ | ErrParseBody _ _ => DecodeError
  | ErrAPI _ | ErrStatus _ _ => ApiError
  | ErrNoResponse _ | ErrNoSuggestion => EmptyResponse
  | ErrGhNotFound => ToolNotFound
  | ErrCopilotNotWorking => ToolNotAvailable
  | ErrNotAuthenticated => NotAuthenticated
  | ErrSubscription => SubscriptionRequired
  | ErrCanceled | ErrCopilotFailed _ _ => SubprocessFailure
  end.

(** A Go result [(value, error)]. *)
Inductive result (A : Type) :=
| Ok (a : A)
| Err (e : error).
Arguments Ok {A} a.
Arguments Err {A} e.

(** *** The registry *)

(** [IsCopilotAvailable] checks if GitHub Copilot CLI is available: [gh]
    is on the search path and [gh copilot -- --version] runs without
    error. *)
Definition IsCopilotAvailable (h : Host) : bool :=
  match LookPath h (str "gh") with
  | None => false
  | Some ghPath =>
      match runErr (Run h ghPath [str "copilot"; str "--"; str "--version"]) with
      | None => true
      | Some _ => false
      end
  end.

(** The loop of [Detect] over [apiProviders]: the first provider whose
    variable is not empty is marked and returned with its key. *)
Fixpoint detectLoop (h : Host) (ps : list ProviderRef) (st : Store)
  : option (ProviderRef * gostring * Store) :=
  match ps with
  | [] => None
  | p :: ps' =>
      let key := Getenv h (EnvVar (st p)) in
      if negb (gostring_eqb key [])
      then Some (p, key, setConfigured st p)
      else detectLoop h ps' st
  end.

(** [Detect] automatically detects the first available provider; [None]
    is the nil pointer. *)
Definition Detect (h : Host) (st : Store)
  : option ProviderRef * gostring * Store :=
  match detectLoop h apiProviders st with
  | Some (p, key, st') => (Some p, key, st')
  | None =>
      if IsCopilotAvailable h
      then (Some GitHubCopilot, [], setConfigured st GitHubCopilot)
      else (None, [], st)
  end.

(** The loop of [GetByName] over [apiProviders]; [None] when no name
    matches. *)
Fixpoint getByNameLoop (h : Host) (name : gostring) (ps : list ProviderRef)
  (st : Store) : option (result (ProviderRef * gostring) * Store) :=
  match ps with
  | [] => None
  | p :: ps' =>
      if gostring_eqb (Name (st p)) name then
        let key := Getenv h (EnvVar (st p)) in
        if gostring_eqb key []
        then Some (Err (ErrRequiresEnv name (EnvVar (st p))), st)
        else Some (Ok (p, key), setConfigured st p)
      else getByNameLoop h name ps' st
  end.

(** [GetByName] returns a provider by name. *)
Definition GetByName (h : Host) (name : gostring) (st : Store)
  : result (ProviderRef * gostring) * Store :=
  match getByNameLoop h name apiProviders st with
  | Some r => r
  | None =>
      if gostring_eqb name (Name (st GitHubCopilot))
         || gostring_eqb name (str "Copilot")
         || gostring_eqb name (str "copilot")
      then
        if negb (IsCopilotAvailable h)
        then (Err ErrCopilotCLIUnavailable, st)
        else (Ok (GitHubCopilot, []), setConfigured st GitHubCopilot)
      else (Err (ErrUnknownProvider name), st)
  end.

(** [ListAll] returns information about all providers. *)
Definition ListAll (h : Host) (st : Store) : list ProviderInfo :=
  map (fun p =>
         mkProviderInfo (Name (st p)) (DefaultModel (st p)) (EnvVar (st p))
           (negb (gostring_eqb (Getenv h (EnvVar (st p))) [])))
      apiProviders
  ++ [mkProviderInfo (Name (st GitHubCopilot))
        (DefaultModel (st GitHubCopilot)) (str "gh copilot (CLI)")
        (IsCopilotAvailable h)].

(** *** Timeout *)

(** A [time.Duration] is a number of nanoseconds. *)
Definition Second : Z := 1000000000.
Definition Minute : Z := 60 * Second.

(** [DefaultTimeout] is the default timeout for API requests. *)
Definition DefaultTimeout : Z := 30 * Second.

(** [TimeoutEnvVar] is the environment variable to override the default
    timeout. *)
Definition TimeoutEnvVar : gostring := str "HOWTO_TIMEOUT".

(** [GetTimeout] returns the configured timeout duration.
    [ParseDuration] is [time.ParseDuration] of the Go library, [None] when
    it returns an error. *)
Definition GetTimeout (ParseDuration : gostring -> option Z) (h : Host)
  (flagTimeout : Z) : Z :=
  if (0 <? flagTimeout)%Z then flagTimeout
  else
    let envTimeout := Getenv h TimeoutEnvVar in
    if negb (gostring_eqb envTimeout []) then
      match ParseDuration envTimeout with
      | Some d => d
      | None => DefaultTimeout
      end
    else DefaultTimeout.

(** *** GitHub Copilot *)

Definition fence : gostring := str "```".

(** The state of the loop of [CleanCopilotResponse]: the lines kept so far
    and [inCodeBlock]. *)
Definition cleanStep (st : list gostring * bool) (line : gostring)
  : list gostring * bool :=
  let '(cleaned, inCodeBlock) := st in
  let trimmed := TrimSpace line in
  if (length cleaned =? 0)%nat && gostring_eqb trimmed [] then st
  else if HasPrefix trimmed fence then (cleaned, negb inCodeBlock)
  else if inCodeBlock || negb (HasPrefix trimmed fence)
       then (cleaned ++ [line], inCodeBlock)
       else st.

(** [CleanCopilotResponse] removes markdown formatting from Copilot's
    response. *)
Definition CleanCopilotResponse (response : gostring) : gostring :=
  let lines := Split response LF in
  let cleaned := fst (fold_left cleanStep lines ([], false)) in
  let result := Join cleaned LF in
  let result := Trim result (str "`") in
  TrimSpace result.

Definition handleCopilotError (ctx : CtxErr) (err stderrStr : gostring)
  : error :=
  match ctx with
  | DeadlineExceeded => ErrTimedOut
  | Canceled => ErrCanceled
  | CtxNone =>
      if Contains stderrStr (str "not installed")
         || Contains stderrStr (str "extension")
      then ErrCopilotNotWorking
      else if Contains stderrStr (str "auth")
              || Contains stderrStr (str "login")
      then ErrNotAuthenticated
      else if Contains stderrStr (str "subscription")
      then ErrSubscription
      else ErrCopilotFailed err stderrStr
  end.

(** The arguments of the [gh] command: prompt mode, silent, and the model
    when one is given that is not the default. *)
Definition copilotArgs (model promptText : gostring) : list gostring :=
  let shellPrompt :=
    str "Output only a shell command (no explanation, no markdown, no backticks) that: "
    ++ promptText in
  let args := [str "copilot"; str "--"; str "-p"; shellPrompt; str "-s"] in
  if negb (gostring_eqb model []) && negb (gostring_eqb model (str "gpt-4"))
  then args ++ [str "--model"; model]
  else args.

(** [queryCopilot] uses the official GitHub Copilot CLI (gh copilot). *)
Definition queryCopilot (h : Host) (p : Provider)
  (apiKey model promptText : gostring) : result gostring :=
  match LookPath h (str "gh") with
  | None => Err ErrGhNotFound
  | Some ghPath =>
      let r := Run h ghPath (copilotArgs model promptText) in
      match runErr r with
      | Some err => Err (handleCopilotError (runCtx r) err (Stderr r))
      | None =>
          let result := TrimSpace (Stdout r) in
          if gostring_eqb result [] then Err ErrNoSuggestion
          else Ok (CleanCopilotResponse result)
      end
  end.

(** *** HTTP providers *)

(** [Message] represents a chat message. *)
Record Message := mkMessage { Role : gostring; Content : gostring }.

(** [ChatRequest] represents a chat completion request. *)
Record ChatRequest := mkChatRequest {
  Model : gostring;
  Messages : list Message;
  MaxTokens : Z
}.

(** [APIError] represents an API error response. *)
Record APIError := mkAPIError { errMessage : gostring }.

Record Choice := mkChoice { choiceMessage : Message }.

(** [ChatResponse] represents a chat completion response; the [Error]
    field is a pointer, [None] when nil. *)
Record ChatResponse := mkChatResponse {
  Choices : list Choice;
  chatError : option APIError
}.

(** [AnthropicMessage] represents a message in Anthropic format. *)
Record AnthropicMessage := mkAnthropicMessage {
  aRole : gostring;
  aContent : gostring
}.

(** [AnthropicRequest] represents an Anthropic API request. *)
Record AnthropicRequest := mkAnthropicRequest {
  aModel : gostring;
  aMaxTokens : Z;
  aMessages : list AnthropicMessage
}.

Record ContentBlock := mkContentBlock {
  blockType : gostring;
  blockText : gostring
}.

Record AnthropicError := mkAnthropicError {
  aErrType : gostring;
  aErrMessage : gostring
}.

(** [AnthropicResponse] represents an Anthropic API response. *)
Record AnthropicResponse := mkAnthropicResponse {
  respContent : list ContentBlock;
  respError : option AnthropicError
}.

(** An [http.Request] as the code builds it. *)
Record Request := mkRequest {
  Method : gostring;
  URL : gostring;
  Header : gmap gostring gostring;
  Body : gostring
}.

(** [req.Header.Set(key, value)]. *)
Definition HeaderSet (req : Request) (key value : gostring) : Request :=
  mkRequest (Method req) (URL req) (<[key := value]> (Header req)) (Body req).

(** The result of a call into the Go library: a value, or an error with
    its text. *)
Inductive try (A : Type) :=
| Done (a : A)
| Failed (cause : gostring).
Arguments Done {A} a.
Arguments Failed {A} cause.

(** An [http.Response]: the status code and what [io.ReadAll] gives for
    the body. *)
Record Response := mkResponse {
  StatusCode : Z;
  ReadAll : try gostring
}.

(** What [client.Do] gives: a response, or an error together with
    [ctx.Err()] at that moment. *)
Inductive DoResult :=
| DoDone (resp : Response)
| DoFailed (ctx : CtxErr) (cause : gostring).

(** The network and the JSON codec of the Go library. *)
Record Net := mkNet {
  MarshalChat : ChatRequest -> try gostring;
  MarshalAnthropic : AnthropicRequest -> try gostring;
  (** the error of [http.NewRequestWithContext] for a method and a URL *)
  requestError : gostring -> gostring -> option gostring;
  Do : Request -> DoResult;
  UnmarshalChat : gostring -> try ChatResponse;
  UnmarshalAnthropic : gostring -> try AnthropicResponse
}.

Definition NewRequestWithContext (net : Net) (method url body : gostring)
  : try Request :=
  match requestError net method url with
  | Some err => Failed err
  | None => Done (mkRequest method url ∅ body)
  end.

Definition StatusOK : Z := 200.

(** [x <- e or wrap ;; k]: the value of the library call [e] goes on to
    [k], its error is returned wrapped by [wrap]. *)
Notation "x <- e 'or' wrap ;; k" :=
  (match e with
   | Done x => k
   | Failed err => Err (wrap err)
   end)
  (at level 100, e at next level, wrap at next level, right associativity,
   only parsing).

Definition sendError (ctx : CtxErr) (cause : gostring) : error :=
  match ctx with
  | DeadlineExceeded => ErrTimedOut
  | _ => ErrSend cause
  end.

(** The request [queryOpenAICompatible] builds: the body marshalled, the
    request created, the two headers set. *)
Definition newChatRequest (net : Net) (p : Provider)
  (apiKey model promptText : gostring) : result Request :=
  let requestBody :=
    mkChatRequest model [mkMessage (str "user") promptText] 1000 in
  jsonData <- MarshalChat net requestBody or ErrMarshal ;;
  req <- NewRequestWithContext net (str "POST") (Endpoint p) jsonData
    or ErrCreateRequest ;;
  let req := HeaderSet req (str "Content-Type") (str "application/json") in
  let req := HeaderSet req (str "Authorization") (str "Bearer " ++ apiKey) in
  Ok req.

Definition queryOpenAICompatible (net : Net) (p : Provider)
  (apiKey model promptText : gostring) : result gostring :=
  match newChatRequest net p apiKey model promptText with
  | Err e => Err e
  | Ok req =>
      match Do net req with
      | DoFailed ctx err => Err (sendError ctx err)
      | DoDone resp =>
          body <- ReadAll resp or ErrRead ;;
          chatResp <- UnmarshalChat net body or ErrParse ;;
          match chatError chatResp with
          | Some e => Err (ErrAPI (errMessage e))
          | None =>
              if negb (StatusCode resp =? StatusOK)%Z
              then Err (ErrStatus (StatusCode resp) body)
              else
                match Choices chatResp with
                | c :: _ => Ok (Content (choiceMessage c))
                | [] => Err (ErrNoResponse (Name p))
                end
          end
      end
  end.

(** The request [queryAnthropic] builds. *)
Definition newAnthropicRequest (net : Net) (p : Provider)
  (apiKey model promptText : gostring) : result Request :=
  let requestBody :=
    mkAnthropicRequest model 1000
      [mkAnthropicMessage (str "user") promptText] in
  jsonData <- MarshalAnthropic net requestBody or ErrMarshal ;;
  req <- NewRequestWithContext net (str "POST") (Endpoint p) jsonData
    or ErrCreateRequest ;;
  let req := HeaderSet req (str "Content-Type") (str "application/json") in
  let req := HeaderSet req (str "X-Api-Key") apiKey in
  let req := HeaderSet req (str "Anthropic-Version") (str "2023-06-01") in
  Ok req.

Definition queryAnthropic (net : Net) (p : Provider)
  (apiKey model promptText : gostring) : result gostring :=
  match newAnthropicRequest net p apiKey model promptText with
  | Err e => Err e
  | Ok req =>
      match Do net req with
      | DoFailed ctx err => Err (sendError ctx err)
      | DoDone resp =>
          body <- ReadAll resp or ErrRead ;;
          anthropicResp <- UnmarshalAnthropic net body
            or (fun err => ErrParseBody err body) ;;
          match respError anthropicResp with
          | Some e => Err (ErrAPI (aErrMessage e))
          | None =>
              if negb (StatusCode resp =? StatusOK)%Z
              then Err (ErrStatus (StatusCode resp) body)
              else
                match respContent anthropicResp with
                | b :: _ =>
                    if gostring_eqb (blockType b) (str "text")
                    then Ok (blockText b)
                    else Err (ErrNoResponse (str "Anthropic"))
                | [] => Err (ErrNoResponse (str "Anthropic"))
                end
          end
      end
  end.

(** [Query] sends a chat completion request to the provider. *)
Definition Query (net : Net) (h : Host) (p : Provider)
  (apiKey model promptText : gostring) : result gostring :=
  if bool_decide (authType p = AuthCLI)
  then queryCopilot h p apiKey model promptText
  else if gostring_eqb (Name p) (str "Anthropic")
  then queryAnthropic net p apiKey model promptText
  else queryOpenAICompatible net p apiKey model promptText.

(** *** Sequences of registry calls *)

(** The fields of a descriptor that no function assigns. *)
Definition descriptor (v : Provider)
  : gostring * gostring * gostring * gostring * AuthType :=
  (Name v, Endpoint v, DefaultModel v, EnvVar v, authType v).

(** The stores the program can reach hold the descriptors of the package
    variables. *)
Definition sameDescriptors (st : Store) : Prop :=
  forall r, descriptor (st r) = descriptor (initialStore r).

Inductive Call :=
| CallDetect
| CallGetByName (name : gostring)
| CallListAll.

(** The store a call leaves behind. *)
Definition call (h : Host) (c : Call) (st : Store) : Store :=
  match c with
  | CallDetect => (Detect h st).2
  | CallGetByName name => (GetByName h name st).2
  | CallListAll => st
  end.

(** A sequence of calls, each made on the host as it is at that moment. *)
Definition run (trace : list (Host * Call)) (st : Store) : Store :=
  fold_left (fun st hc => call hc.1 hc.2 st) trace st.

End provider.

(** ** Package ui *)

Module ui.

(** The size in bytes of the rune that [utf8] decodes at the head of [s]: an
    ASCII byte, a well-formed sequence of two to four bytes, or one byte of
    an ill-formed one.  [leading] gives, for a leading byte, the size of its
    sequence and the range its second byte must lie in. *)
Definition leading (n : nat) : option (nat * nat * nat) :=
  if (194 <=? n)%nat && (n <=? 223)%nat then Some (2, 128, 191)
  else if (n =? 224)%nat then Some (3, 160, 191)
  else if (225 <=? n)%nat && (n <=? 236)%nat then Some (3, 128, 191)
  else if (n =? 237)%nat then Some (3, 128, 159)
  else if (238 <=? n)%nat && (n <=? 239)%nat then Some (3, 128, 191)
  else if (n =? 240)%nat then Some (4, 144, 191)
  else if (241 <=? n)%nat && (n <=? 243)%nat then Some (4, 128, 191)
  else if (n =? 244)%nat then Some (4, 128, 143)
  else None.

Definition within (lo hi : nat) (c : ascii) : bool :=
  (lo <=? nat_of_ascii c)%nat && (nat_of_ascii c <=? hi)%nat.

Definition runeSize (s : gostring) : nat :=
  match s with
  | [] => 0
  | c :: rest =>
      if (nat_of_ascii c <? 128)%nat then 1
      else
        match leading (nat_of_ascii c) with
        | None => 1
        | Some (size, lo, hi) =>
            if (length s <? size)%nat then 1
            else
              match rest with
              | c1 :: c2 :: c3 :: _ =>
                  if negb (within lo hi c1) then 1
                  else if (size =? 2)%nat then 2
                  else if negb (within 128 191 c2) then 1
                  else if (size =? 3)%nat then 3
                  else if negb (within 128 191 c3) then 1
                  else 4
              | [c1; c2] =>
                  if negb (within lo hi c1) then 1
                  else if (size =? 2)%nat then 2
                  else if negb (within 128 191 c2) then 1
                  else 3
              | [c1] => if negb (within lo hi c1) then 1 else 2
              | [] => 1
              end
        end
  end.

(** [utf8.RuneCountInString]; [skip] counts the bytes of the current rune
    still to be passed over. *)
Fixpoint runeCountGo (skip : nat) (s : gostring) : nat :=
  match s with
  | [] => 0
  | _ :: rest =>
      match skip with
      | S k => runeCountGo k rest
      | O => S (runeCountGo (runeSize s - 1) rest)
      end
  end.

Definition RuneCountInString (s : gostring) : nat := runeCountGo 0 s.

(** [fmt.Printf("%-*s", width, s)]: [s], then spaces up to [width] runes. *)
Definition padRight (width : nat) (s : gostring) : gostring :=
  s ++ repeat " "%char (width - RuneCountInString s).

(** A row with the index of each cell. *)
Definition indexed (row : list gostring) : list (nat * gostring) :=
  combine (seq 0 (length row)) row.

(** The inner loop that computes the column widths. *)
Definition widenCell (colWidths : list nat) (ic : nat * gostring)
  : list nat :=
  match colWidths !! ic.1 with
  | Some w =>
      if (w <? length ic.2)%nat then <[ic.1 := length ic.2]> colWidths
      else colWidths
  | None => colWidths
  end.

Definition widenRow (colWidths : list nat) (row : list gostring)
  : list nat :=
  fold_left widenCell (indexed row) colWidths.

Definition columnWidths (headers : list gostring)
  (rows : list (list gostring)) : list nat :=
  fold_left widenRow rows (map (@length ascii) headers).

(** The two spaces printed after every cell but the last of its row. *)
Definition cellGap (n i : nat) : gostring :=
  if (i <? n - 1)%nat then str "  " else [].

(** The cells of one row printed from index [i] on, [n] being the number of
    cells of the row: the text printed, and [false] when the index of a cell
    is out of the range of [colWidths], where the program panics. *)
Fixpoint printCells (colWidths : list nat) (n i : nat)
  (cells : list gostring) : gostring * bool :=
  match cells with
  | [] => ([], true)
  | cell :: rest =>
      match colWidths !! i with
      | None => ([], false)
      | Some w =>
          let '(out, ok) := printCells colWidths n (S i) rest in
          (padRight w cell ++ cellGap n i ++ out, ok)
      end
  end.

(** The separator line: as many dashes as each column is wide. *)
Fixpoint printDashes (colWidths : list nat) (n i : nat) : gostring :=
  match colWidths with
  | [] => []
  | w :: rest =>
      repeat "-"%char w ++ cellGap n i ++ printDashes rest n (S i)
  end.

Fixpoint printRows (colWidths : list nat) (rows : list (list gostring))
  : gostring * bool :=
  match rows with
  | [] => ([], true)
  | row :: rest =>
      let '(line, ok) := printCells colWidths (length row) 0 row in
      if ok then
        let '(out, ok') := printRows colWidths rest in
        (line ++ LF ++ out, ok')
      else (line, false)
  end.

(** [PrintTable] prints a simple table: what it writes to the standard
    output, and whether it returns ([false] when it panics). *)
Definition PrintTable (headers : list gostring)
  (rows : list (list gostring)) : gostring * bool :=
  let colWidths := columnWidths headers rows in
  let head := (printCells colWidths (length headers) 0 headers).1 in
  let dashes := printDashes colWidths (length headers) 0 in
  let '(body, ok) := printRows colWidths rows in
  (head ++ LF ++ dashes ++ LF ++ body, ok).

End ui.

(** ** Package cmd *)

Module cmd.
Import strings prompt provider ui.

(** The flags of the root command. *)
Record Flags := mkFlags {
  modelFlag : gostring;
  providerFlag : gostring;
  dryRunFlag : bool;
  timeoutFlag : Z
}.

(** What a run of the command does that can be seen from outside, in
    order: the calls of [ui.PrintError], [ui.PrintInfo] and
    [ui.PrintHeader] with their argument, the text written to the standard
    output, and the call of [terminal.InsertInput]. *)
Inductive Event :=
| EvPrintError (message : gostring)
| EvPrintInfo (message : gostring)
| EvPrintHeader (title : gostring)
| EvStdout (text : gostring)
| EvInsertInput (command : gostring).

(** The errors the command returns. *)
Inductive cmdError :=
| ErrGetProvider (cause : error)
| ErrNoProvider
| ErrQueryProvider (cause : error).

Definition cmdErrorText (e : cmdError) : gostring :=
  match e with
  | ErrGetProvider cause => str "failed to get provider: " ++ Error cause
  | ErrNoProvider => str "no provider configured"
  | ErrQueryProvider cause => str "failed to query provider: " ++ Error cause
  end.

(** The world of one run: the host, and the network and the subprocess runs
    as they answer under a deadline of the given duration. *)
Record World := mkWorld {
  host : Host;
  netWithin : Z -> Net;
  runWithin : Z -> gostring -> list gostring -> RunResult
}.

Definition hostWithin (w : World) (timeout : Z) : Host :=
  mkHost (environ (host w)) (LookPath (host w)) (runWithin w timeout).

Definition getProvider (fl : Flags) (h : Host) (st : Store)
  : list Event * (cmdError + ProviderRef * gostring) * Store :=
  if negb (gostring_eqb (providerFlag fl) []) then
    match GetByName h (providerFlag fl) st with
    | (Err err, st') =>
        ([EvPrintError (str "Provider '" ++ providerFlag fl
                        ++ str "' not found or not configured")],
         inl (ErrGetProvider err), st')
    | (Ok (p, apiKey), st') => ([], inr (p, apiKey), st')
    end
  else
    match Detect h st with
    | (None, _, st') =>
        ([EvPrintError (str "No API key found");
          EvPrintInfo (str "Set one of: OPENAI_API_KEY, ANTHROPIC_API_KEY, GEMINI_API_KEY, DEEPSEEK_API_KEY, GITHUB_TOKEN")],
         inl ErrNoProvider, st')
    | (Some p, apiKey, st') => ([], inr (p, apiKey), st')
    end.

Definition runHowto (ParseDuration : gostring -> option Z)
  (goos : gostring) (w : World) (fl : Flags) (args : list gostring)
  (st : Store) : list Event * option cmdError * Store :=
  let query := Join args SP in
  match getProvider fl (host w) st with
  | (events, inl err, st') => (events, Some err, st')
  | (events, inr (p, apiKey), st') =>
      let model :=
        if gostring_eqb (modelFlag fl) [] then DefaultModel (st' p)
        else modelFlag fl in
      let promptText := Generate goos query in
      let timeout := GetTimeout ParseDuration (host w) (timeoutFlag fl) in
      match Query (netWithin w timeout) (hostWithin w timeout) (st' p)
              apiKey model promptText with
      | Err err =>
          (events
           ++ [EvPrintError (str "Failed to query " ++ Name (st' p)
                             ++ str ": " ++ Error err)],
           Some (ErrQueryProvider err), st')
      | Ok response =>
          let command := SanitizeCommand response in
          if dryRunFlag fl then
            (events
             ++ [EvPrintInfo (str "Provider: " ++ Name (st' p)
                              ++ str " (model: " ++ model ++ str ")");
                 EvStdout (command ++ LF)],
             None, st')
          else (events ++ [EvInsertInput command], None, st')
      end
  end.




End cmd.

(** ** Sample inputs *)

Module samples.
Import strings provider.

(** A text given line by line. *)
Definition lines (l : list string) : gostring := Join (map str l) LF.

(** A host with the given environment, without [gh]. *)
Definition envHost (env : list (string * string)) : Host :=
  mkHost (list_to_map (map (fun kv => (str kv.1, str kv.2)) env))
    (fun _ => None)
    (fun _ _ => mkRunResult (Some (str "exec: not started")) [] [] CtxNone).

(** A host where [gh] is installed and every run of it succeeds and prints
    [stdout]. *)
Definition copilotHost (stdout : gostring) : Host :=
  mkHost ∅
    (fun file => if gostring_eqb file (str "gh")
                 then Some (str "/usr/bin/gh") else None)
    (fun _ _ => mkRunResult None stdout [] CtxNone).

(** The JSON text of an error payload with the given message. *)
Definition dq : gostring := ["034"%char].
Definition errorBody (message : string) : gostring :=
  str "{" ++ dq ++ str "error" ++ dq ++ str ":{" ++ dq ++ str "message"
  ++ dq ++ str ":" ++ dq ++ str message ++ dq ++ str "}}".

(** A network that answers every request with [resp], and a codec that
    decodes every body to [chat] and [anthropic]. *)
Definition fixedNet (resp : Response) (chat : try ChatResponse)
  (anthropic : try AnthropicResponse) : Net :=
  mkNet (fun _ => Done (str "{}")) (fun _ => Done (str "{}"))
    (fun _ _ => None) (fun _ => DoDone resp)
    (fun _ => chat) (fun _ => anthropic).

(** The answer of the end-to-end example of the specification: status 401
    and an error payload with the message [invalid key]. *)
Definition invalidKeyNet : Net :=
  fixedNet (mkResponse 401 (Done (errorBody "invalid key")))
    (Done (mkChatResponse [] (Some (mkAPIError (str "invalid key")))))
    (Done (mkAnthropicResponse []
             (Some (mkAnthropicError (str "authentication_error")
                      (str "invalid key"))))).

(** A gateway that answers with status 502 and a page of HTML, which the
    codec rejects. *)
Definition badGatewayBody : gostring := str "<html>Bad Gateway</html>".
Definition htmlCause : gostring :=
  str "invalid character '<' looking for beginning of value".
Definition badGatewayNet : Net :=
  fixedNet (mkResponse 502 (Done badGatewayBody))
    (Failed htmlCause) (Failed htmlCause).

(** Status 500 with a JSON body that holds no error payload. *)
Definition serverErrorNet : Net :=
  fixedNet (mkResponse 500 (Done (str "{}")))
    (Done (mkChatResponse [] None)) (Done (mkAnthropicResponse [] None)).

(** An answer of Anthropic with the given content blocks. *)
Definition contentNet (blocks : list ContentBlock) : Net :=
  fixedNet (mkResponse 200 (Done (str "{}")))
    (Done (mkChatResponse [] None))
    (Done (mkAnthropicResponse blocks None)).

(** The table of [TestSanitizeCommand]: inputs and wanted results. *)
Definition sanitizeTests : list (gostring * gostring) :=
  [ (str "ls -la", str "ls -la");
    (str "  ls -la  ", str "ls -la");
    (lines ["```bash"; "ls -la"; "```"], str "ls -la");
    (lines ["```"; "ls -la"; "```"], str "ls -la");
    (str "`ls -la`", str "ls -la");
    (lines ["bash"; "ls -la"], str "ls -la");
    (lines ["sh"; "ls -la"], str "ls -la");
    (lines ["zsh"; "ls -la"], str "ls -la");
    (lines ["ls -la"; "pwd"], str "ls -la pwd");
    (str "ls   -la    /tmp", str "ls -la /tmp");
    (Join [str "```bash";
           str "find . -name " ++ dq ++ str "*.go" ++ dq ++ str " -type f";
           str "```"] LF,
     str "find . -name " ++ dq ++ str "*.go" ++ dq ++ str " -type f");
    (str "```ls -la```", str "ls -la");
    (lines ["powershell"; "Get-ChildItem"], str "Get-ChildItem");
    (lines ["cmd"; "dir /s"], str "dir /s") ].

Definition sanitizeTestInputs : list gostring := map fst sanitizeTests.

(** The table of [TestCleanCopilotResponse]. *)
Definition cleanTests : list (gostring * gostring) :=
  [ (str "ls -la", str "ls -la");
    (lines [""; ""; "ls -la"], str "ls -la");
    (lines ["```bash"; "ls -la"; "```"], str "ls -la");
    (lines ["```"; "ls -la"; "```"], str "ls -la");
    (str "`ls -la`", str "ls -la");
    (Join [str "```bash";
           str "find . -name " ++ dq ++ str "*.go" ++ dq ++ str " \";
           str "  -type f"; str "```"] LF,
     Join [str "find . -name " ++ dq ++ str "*.go" ++ dq ++ str " \";
           str "  -type f"] LF);
    (str "ls -la`", str "ls -la");
    (str "`ls -la", str "ls -la");
    (lines ["```"; "```"], []);
    (lines ["```"; "echo '```'"; "```"], str "echo '```'");
    (lines ["   "; ""; "   "], []) ].

(** [time.ParseDuration] on the strings of the tests. *)
Definition testParseDuration (s : gostring) : option Z :=
  if gostring_eqb s (str "45s") then Some (45 * Second)%Z
  else if gostring_eqb s (str "2m") then Some (2 * Minute)%Z
  else None.

End samples.

(** ** The behaviour the specification describes *)

Module spec.
Import strings provider.

(** The provider and the credential [Detect] returns, as a cascade over the
    four variables and the probe of the Copilot CLI. *)
Definition detectCascade (h : Host) : option ProviderRef * gostring :=
  if negb (gostring_eqb (Getenv h (str "OPENAI_API_KEY")) [])
  then (Some OpenAI, Getenv h (str "OPENAI_API_KEY"))
  else if negb (gostring_eqb (Getenv h (str "ANTHROPIC_API_KEY")) [])
  then (Some Anthropic, Getenv h (str "ANTHROPIC_API_KEY"))
  else if negb (gostring_eqb (Getenv h (str "GEMINI_API_KEY")) [])
  then (Some Gemini, Getenv h (str "GEMINI_API_KEY"))
  else if negb (gostring_eqb (Getenv h (str "DEEPSEEK_API_KEY")) [])
  then (Some DeepSeek, Getenv h (str "DEEPSEEK_API_KEY"))
  else if IsCopilotAvailable h then (Some GitHubCopilot, [])
  else (None, []).

(** A fence-marker line: after trimming, the line starts with the triple
    backtick, whatever follows it on the line. *)
Definition isFenceLine (line : gostring) : bool :=
  HasPrefix (TrimSpace line) fence.

(** A blank line trims to the empty string. *)
Definition isBlankLine (line : gostring) : bool :=
  gostring_eqb (TrimSpace line) [].

(** Leading blank lines skipped. *)
Fixpoint dropBlank (lines : list gostring) : list gostring :=
  match lines with
  | [] => []
  | line :: rest => if isBlankLine line then dropBlank rest else lines
  end.

(** The lines the line-by-line processing of the specification retains:
    every line that is not a fence-marker line, after the leading blank
    lines. *)
Definition retainedLines (lines : list gostring) : list gostring :=
  dropBlank (List.filter (fun line => negb (isFenceLine line)) lines).

(** The number of fence-marker lines. *)
Definition fenceCount (lines : list gostring) : nat :=
  length (List.filter isFenceLine lines).

(** A text made of white space only: a sequence of runes for which
    [unicode.IsSpace] holds. *)
Definition whitespace (s : gostring) : Prop :=
  exists runes, Forall (fun e => In e spaceRunes) runes /\ s = concat runes.

End spec.

(** ** Auxiliary notions for the further properties *)

Module notions.
Import strings prompt provider ui cmd.

(** The seven names [GetByName] accepts. *)
Definition knownNames : list gostring :=
  [str "OpenAI"; str "Anthropic"; str "Gemini"; str "DeepSeek";
   str "GitHub Copilot"; str "Copilot"; str "copilot"].

(** The three names of the CLI provider. *)
Definition copilotNames : list gostring :=
  [str "GitHub Copilot"; str "Copilot"; str "copilot"].

(** The text [SanitizeCommand] has before it replaces the line breaks. *)
Definition beforeReplace (cmd : gostring) : gostring :=
  fold_left removeLanguage languages
    (Trim (removeCodeBlock (TrimSpace cmd)) (str "`")).

(** [piece] is a run of consecutive bytes of [s]. *)
Definition pieceOf (piece s : gostring) : Prop :=
  exists p q, s = p ++ piece ++ q.

(** The number of bytes of the cell of [row] in column [i]; 0 when the row
    has no such cell. *)
Definition cellLen (row : list gostring) (i : nat) : nat :=
  match row !! i with
  | Some cell => length cell
  | None => 0
  end.







(** The variables of the environment the packages read. *)
Definition readVariables : list gostring :=
  [str "OPENAI_API_KEY"; str "ANTHROPIC_API_KEY"; str "GEMINI_API_KEY";
   str "DEEPSEEK_API_KEY"; str "HOWTO_TIMEOUT"].

(** The same world with another environment. *)
Definition withEnviron (w : World) (env : gmap gostring gostring) : World :=
  mkWorld (mkHost env (LookPath (host w)) (Run (host w)))
    (netWithin w) (runWithin w).

(** *** Sample hosts, networks and worlds *)

(** [time.ParseDuration] on the strings of the tests and on [0]. *)
Definition zeroParseDuration (s : gostring) : option Z :=
  if gostring_eqb s (str "0") then Some 0%Z
  else samples.testParseDuration s.

(** A network on which no request can be sent. *)
Definition failingNet (ctx : CtxErr) (cause : gostring) : Net :=
  mkNet (fun _ => Done (str "{}")) (fun _ => Done (str "{}"))
    (fun _ _ => None) (fun _ => DoFailed ctx cause)
    (fun _ => Failed (str "unexpected end of JSON input"))
    (fun _ => Failed (str "unexpected end of JSON input")).

(** A host where [gh] is installed and every run of it fails. *)
Definition failingGhHost (stdout stderr : gostring) (ctx : CtxErr) : Host :=
  mkHost ∅
    (fun file => if gostring_eqb file (str "gh")
                 then Some (str "/usr/bin/gh") else None)
    (fun _ _ => mkRunResult (Some (str "exit status 1")) stdout stderr ctx).


(** A world with the given environment, without [gh], whose network
    answers like [net] under every deadline. *)
Definition envWorld (env : list (string * string)) (net : Net) : World :=
  mkWorld (samples.envHost env) (fun _ => net)
    (fun _ => Run (samples.envHost env)).

End notions.

(** * Properties *)

Import strings prompt provider samples spec.

(** ** The tests of the repository, run on the model *)

Lemma TestSanitizeCommand :
  Forall (fun t => SanitizeCommand t.1 = t.2) sanitizeTests.
Proof.
  unfold sanitizeTests.
  repeat (constructor; [vm_compute; reflexivity |]). constructor.
Qed.

Lemma TestCleanCopilotResponse :
  Forall (fun t => CleanCopilotResponse t.1 = t.2) cleanTests.
Proof.
  unfold cleanTests.
  repeat (constructor; [vm_compute; reflexivity |]). constructor.
Qed.

Lemma TestGetTimeoutWithEnv :
  GetTimeout testParseDuration (envHost [("HOWTO_TIMEOUT", "45s")]) 0
  = (45 * Second)%Z
  /\ GetTimeout testParseDuration (envHost [("HOWTO_TIMEOUT", "2m")]) 0
     = (2 * Minute)%Z
  /\ GetTimeout testParseDuration (envHost [("HOWTO_TIMEOUT", "invalid")]) 0
     = DefaultTimeout
  /\ GetTimeout testParseDuration (envHost []) (60 * Second)
     = (60 * Second)%Z.
Proof. repeat apply conj; vm_compute; reflexivity. Qed.

Lemma TestDetect :
  (Detect (envHost [("OPENAI_API_KEY", "test-key")]) initialStore).1
  = (Some OpenAI, str "test-key")
  /\ (Detect (envHost [("ANTHROPIC_API_KEY", "test-anthropic-key")])
        initialStore).1
     = (Some Anthropic, str "test-anthropic-key")
  /\ (Detect (envHost [("OPENAI_API_KEY", "openai-key");
                       ("ANTHROPIC_API_KEY", "anthropic-key")])
        initialStore).1.1
     = Some OpenAI.
Proof. repeat apply conj; vm_compute; reflexivity. Qed.

Lemma TestGetByName :
  (GetByName (envHost [("OPENAI_API_KEY", "test-key")]) (str "OpenAI")
     initialStore).1
  = Ok (OpenAI, str "test-key")
  /\ (GetByName (envHost []) (str "OpenAI") initialStore).1
     = Err (ErrRequiresEnv (str "OpenAI") (str "OPENAI_API_KEY"))
  /\ (GetByName (envHost []) (str "UnknownProvider") initialStore).1
     = Err (ErrUnknownProvider (str "UnknownProvider"))
  /\ Forall (fun alias =>
               (GetByName (envHost []) alias initialStore).1
               = Err ErrCopilotCLIUnavailable
               /\ (GetByName (copilotHost []) alias initialStore).1
                  = Ok (GitHubCopilot, []))
       [str "GitHub Copilot"; str "Copilot"; str "copilot"]
  /\ Error ErrCopilotCLIUnavailable
     = str "GitHub Copilot CLI not available. Install with: gh extension install github/gh-copilot".
Proof.
  repeat apply conj; try (vm_compute; reflexivity).
  repeat (constructor; [split; vm_compute; reflexivity |]). constructor.
Qed.

Lemma TestListAll :
  map infoName (ListAll (envHost []) initialStore)
  = [str "OpenAI"; str "Anthropic"; str "Gemini"; str "DeepSeek";
     str "GitHub Copilot"].
Proof. vm_compute. reflexivity. Qed.

(** ** Lemmas on the Go strings *)

Lemma HasPrefix_app s e : HasPrefix s e = true <-> exists r, s = e ++ r.
Proof.
  revert s. induction e as [| c e IH]; intros s; simpl.
  - split; [intros _; now exists s | reflexivity].
  - destruct s as [| d s].
    + split; [discriminate | intros [r Hr]; discriminate].
    + rewrite andb_true_iff, Ascii.eqb_eq, IH. split.
      * intros [-> [r ->]]. now exists r.
      * intros [r [= -> ->]]. eauto.
Qed.

Lemma HasPrefix_drop s e : HasPrefix s e = true -> s = e ++ drop (length e) s.
Proof.
  intros [r ->]%HasPrefix_app. now rewrite drop_app_length.
Qed.

Lemma HasPrefix_extend s e q :
  HasPrefix s e = true -> HasPrefix (s ++ q) e = true.
Proof.
  intros [r ->]%HasPrefix_app. apply HasPrefix_app.
  exists (r ++ q). now rewrite app_assoc.
Qed.

Lemma HasPrefix_In s a c : HasPrefix s (a ++ [c]) = true -> In c s.
Proof.
  intros [r ->]%HasPrefix_app. rewrite !in_app_iff. left. right. now left.
Qed.

Lemma Contains_app_l p q sub :
  Contains p sub = true -> Contains (p ++ q) sub = true.
Proof.
  induction p as [| c p IH]; simpl.
  - rewrite orb_false_r. intros H.
    destruct q; simpl; rewrite orb_true_iff; left;
      now apply (HasPrefix_extend [] sub).
  - rewrite !orb_true_iff. intros [H | H]; [left | right; auto].
    now apply (HasPrefix_extend (c :: p)).
Qed.

Lemma Contains_app_r p q sub :
  Contains q sub = true -> Contains (p ++ q) sub = true.
Proof.
  intros H. induction p as [| c p IH]; simpl; [exact H |].
  rewrite IH. apply orb_true_r.
Qed.

Lemma Contains_In s c : Contains s [c] = true -> In c s.
Proof.
  induction s as [| d s IH]; simpl; [discriminate |].
  rewrite orb_true_iff, andb_true_r, Ascii.eqb_eq. intros [-> | H]; auto.
Qed.

(** *** ReplaceAll *)

Lemma ReplaceAll_absent s old new :
  Contains s old = false -> ReplaceAll s old new = s.
Proof.
  unfold ReplaceAll. induction s as [| c s IH]; simpl; [reflexivity |].
  rewrite orb_false_iff. intros [Hp Hc].
  destruct old as [| o old]; [discriminate |].
  rewrite Hp. now rewrite IH.
Qed.

Lemma replace_LF_none s : ~ In "010"%char (ReplaceAll s LF SP).
Proof.
  unfold ReplaceAll. induction s as [| c s IH]; simpl; [tauto |].
  rewrite andb_true_r. destruct (Ascii.eqb_spec c "010"%char) as [-> | Hc].
  - simpl. intros [H | H]; [discriminate | auto].
  - simpl. intros [H | H]; auto.
Qed.

Lemma replaceGo_In old new k s c :
  In c (replaceGo old new k s) -> In c s \/ In c new.
Proof.
  revert k. induction s as [| d s IH]; intros k; cbn [replaceGo]; [tauto |].
  destruct k as [| k].
  - destruct (HasPrefix (d :: s) old).
    + rewrite in_app_iff. intros [H | H]; [tauto |].
      apply IH in H. simpl. tauto.
    + simpl. intros [H | H]; [tauto |]. apply IH in H. tauto.
  - intros H. apply IH in H. simpl. tauto.
Qed.

Lemma replaceGo_spaces_length k s :
  length (replaceGo (SP ++ SP) SP k s) <= length s.
Proof.
  revert k. induction s as [| c s IH]; intros k; cbn [replaceGo];
    [simpl; lia |].
  destruct k as [| k].
  - destruct (HasPrefix (c :: s) (SP ++ SP)).
    + change (length (SP ++ SP) - 1) with 1. rewrite length_app.
      specialize (IH 1). change (length SP) with 1. cbn [length]. lia.
    + specialize (IH 0). cbn [length]. lia.
  - specialize (IH k). cbn [length]. lia.
Qed.

Lemma ReplaceAll_spaces_shorter s :
  Contains s (SP ++ SP) = true ->
  length (ReplaceAll s (SP ++ SP) SP) < length s.
Proof.
  unfold ReplaceAll. induction s as [| c s IH]; [discriminate |].
  intros H. change (Contains (c :: s) (SP ++ SP))
    with (HasPrefix (c :: s) (SP ++ SP) || Contains s (SP ++ SP)) in H.
  change (replaceGo (SP ++ SP) SP 0 (c :: s))
    with (if HasPrefix (c :: s) (SP ++ SP)
          then SP ++ replaceGo (SP ++ SP) SP 1 s
          else c :: replaceGo (SP ++ SP) SP 0 s).
  destruct (HasPrefix (c :: s) (SP ++ SP)) eqn:Hp.
  - apply HasPrefix_app in Hp as [r Hr]. injection Hr as -> ->.
    cbn [replaceGo]. rewrite length_app. change (length SP) with 1.
    pose proof (replaceGo_spaces_length 0 r). cbn [length]. lia.
  - simpl in H. specialize (IH H). cbn [length]. lia.
Qed.

(** The loop that collapses the spaces runs to its end: no two spaces in a
    row are left. *)
Lemma collapseSpaces_done n s :
  length s <= n -> Contains (collapseSpaces n s) (SP ++ SP) = false.
Proof.
  revert s. induction n as [| n IH]; intros s Hn.
  - destruct s; [reflexivity | simpl in Hn; lia].
  - cbn [collapseSpaces].
    destruct (Contains s (SP ++ SP)) eqn:Hc; [| exact Hc].
    apply IH. pose proof (ReplaceAll_spaces_shorter s Hc). lia.
Qed.

Lemma collapseSpaces_absent n s :
  Contains s (SP ++ SP) = false -> collapseSpaces n s = s.
Proof.
  intros H. destruct n; cbn [collapseSpaces]; [reflexivity | now rewrite H].
Qed.

Lemma collapseSpaces_In n s c :
  In c (collapseSpaces n s) -> In c s \/ c = " "%char.
Proof.
  revert s. induction n as [| n IH]; intros s; cbn [collapseSpaces]; [tauto |].
  destruct (Contains s (SP ++ SP)); [| tauto].
  intros H. apply IH in H as [H | H]; [| tauto].
  apply replaceGo_In in H as [H | H]; [tauto |].
  right. simpl in H. destruct H as [H | []]. now symmetry.
Qed.

(** *** Trim *)

Lemma trimLeftBytes_head cutset s c r :
  trimLeftBytes cutset s = c :: r -> inCutset cutset c = false.
Proof.
  induction s as [| d s IH]; simpl; [discriminate |].
  destruct (inCutset cutset d) eqn:Hd; [exact IH |].
  now intros [= <- _].
Qed.

(** *** TrimSpace *)

Lemma stripRune_Some table s r :
  stripRune table s = Some r -> exists e, In e table /\ s = e ++ r.
Proof.
  induction table as [| e table IH]; simpl; [discriminate |].
  destruct (HasPrefix s e) eqn:He.
  - intros [= <-]. exists e. split; [now left | now apply HasPrefix_drop].
  - intros H. destruct (IH H) as (e' & Hin & Hs). eauto.
Qed.

Lemma stripRune_None table s e :
  stripRune table s = None -> In e table -> HasPrefix s e = false.
Proof.
  induction table as [| e' table IH]; simpl; [tauto |].
  destruct (HasPrefix s e') eqn:He; [discriminate |].
  intros H [<- | Hin]; auto.
Qed.

Lemma stripRune_None_prefix table u q :
  stripRune table (u ++ q) = None -> stripRune table u = None.
Proof.
  intros H. destruct (stripRune table u) as [r |] eqn:Hu; [| reflexivity].
  apply stripRune_Some in Hu as (e & Hin & ->).
  pose proof (stripRune_None _ _ e H Hin) as Hp.
  rewrite <- app_assoc in Hp.
  assert (HasPrefix (e ++ r ++ q) e = true) by (apply HasPrefix_app; eauto).
  congruence.
Qed.

Lemma trimRunes_fix table n s :
  stripRune table s = None -> trimRunes table n s = s.
Proof. intros H. destruct n; simpl; [reflexivity | now rewrite H]. Qed.

Lemma trimRunes_suffix table n s :
  exists p, s = p ++ trimRunes table n s.
Proof.
  revert s. induction n as [| n IH]; intros s; simpl; [now exists [] |].
  destruct (stripRune table s) as [r |] eqn:Hs; [| now exists []].
  apply stripRune_Some in Hs as (e & _ & ->).
  destruct (IH r) as [p Hp]. exists (e ++ p).
  now rewrite <- app_assoc, <- Hp.
Qed.

(** With a table of non-empty runes the loop runs to its end within
    [length s] rounds: the result starts with no rune of the table. *)
Lemma trimRunes_done table n s :
  Forall (fun e => e <> []) table ->
  length s <= n -> stripRune table (trimRunes table n s) = None.
Proof.
  intros Hne. revert s. induction n as [| n IH]; intros s Hn; simpl.
  - destruct s; [| simpl in Hn; lia].
    induction Hne as [| e table He _ IHt]; simpl; [reflexivity |].
    destruct e; [contradiction | exact IHt].
  - destruct (stripRune table s) as [r |] eqn:Hs; [| exact Hs].
    apply IH. apply stripRune_Some in Hs as (e & Hin & ->).
    rewrite Forall_forall in Hne. specialize (Hne e).
    destruct e; [exfalso; apply Hne; auto; now apply list_elem_of_In |].
    rewrite length_app in Hn. simpl in Hn. lia.
Qed.

Lemma spaceRunes_nonempty : Forall (fun e : gostring => e <> []) spaceRunes.
Proof. unfold spaceRunes. repeat constructor; discriminate. Qed.

Lemma spaceRunes_rev_nonempty :
  Forall (fun e : gostring => e <> []) (map (@rev ascii) spaceRunes).
Proof. unfold spaceRunes. simpl. repeat constructor; discriminate. Qed.

Lemma trimLeftSpace_spec s :
  stripRune spaceRunes (trimLeftSpace s) = None
  /\ exists p, s = p ++ trimLeftSpace s.
Proof.
  split.
  - apply trimRunes_done; [apply spaceRunes_nonempty | lia].
  - apply trimRunes_suffix.
Qed.

Lemma trimRightSpace_spec s :
  stripRune (map (@rev ascii) spaceRunes) (rev (trimRightSpace s)) = None
  /\ exists q, s = trimRightSpace s ++ q.
Proof.
  unfold trimRightSpace. rewrite rev_involutive. split.
  - apply trimRunes_done; [apply spaceRunes_rev_nonempty |].
    now rewrite length_rev.
  - destruct (trimRunes_suffix (map (@rev ascii) spaceRunes) (length s)
                (rev s)) as [p Hp].
    exists (rev p). rewrite <- rev_app_distr, <- Hp.
    now rewrite rev_involutive.
Qed.

(** [TrimSpace] gives a piece of its argument. *)
Lemma TrimSpace_piece s : exists p q, s = p ++ TrimSpace s ++ q.
Proof.
  unfold TrimSpace.
  destruct (trimLeftSpace_spec s) as (_ & p & Hp).
  destruct (trimRightSpace_spec (trimLeftSpace s)) as (_ & q & Hq).
  exists p, q. now rewrite <- Hq.
Qed.

Lemma TrimSpace_idempotent s : TrimSpace (TrimSpace s) = TrimSpace s.
Proof.
  unfold TrimSpace at 1.
  destruct (trimLeftSpace_spec s) as (Hl & _).
  destruct (trimRightSpace_spec (trimLeftSpace s)) as (Hr & q & Hq).
  fold (TrimSpace s) in Hr, Hq.
  assert (Hleft : trimLeftSpace (TrimSpace s) = TrimSpace s).
  { apply trimRunes_fix. rewrite Hq in Hl.
    now apply stripRune_None_prefix in Hl. }
  rewrite Hleft. unfold trimRightSpace.
  rewrite trimRunes_fix by exact Hr. apply rev_involutive.
Qed.

Lemma TrimSpace_In s c : In c (TrimSpace s) -> In c s.
Proof.
  destruct (TrimSpace_piece s) as (p & q & Hs). intros H.
  rewrite Hs, !in_app_iff. tauto.
Qed.

Lemma TrimSpace_Contains s sub :
  Contains s sub = false -> Contains (TrimSpace s) sub = false.
Proof.
  destruct (TrimSpace_piece s) as (p & q & Hs). intros H.
  destruct (Contains (TrimSpace s) sub) eqn:Hc; [| reflexivity].
  rewrite Hs in H.
  now rewrite Contains_app_r in H by now apply Contains_app_l.
Qed.

(** *** ToLower and the language identifiers *)

Lemma lowerByte_LF c : lowerByte c = "010"%char -> c = "010"%char.
Proof.
  destruct c as [[] [] [] [] [] [] [] []]; vm_compute; congruence.
Qed.

Lemma ToLower_In_LF s : In "010"%char (ToLower s) -> In "010"%char s.
Proof.
  unfold ToLower. rewrite in_map_iff.
  intros (c & Hc & Hin). now apply lowerByte_LF in Hc as ->.
Qed.

Lemma removeLanguage_no_LF cmd lang :
  ~ In "010"%char cmd -> removeLanguage cmd lang = cmd.
Proof.
  intros Hno. unfold removeLanguage.
  destruct (HasPrefix (ToLower cmd) (lang ++ LF)) eqn:Hp; [| reflexivity].
  exfalso. apply Hno, ToLower_In_LF. now apply HasPrefix_In in Hp.
Qed.

Lemma removeLanguages_no_LF cmd langs :
  ~ In "010"%char cmd -> fold_left removeLanguage langs cmd = cmd.
Proof.
  intros Hno. induction langs as [| lang langs IH]; simpl; [reflexivity |].
  now rewrite removeLanguage_no_LF.
Qed.

(** *** White space *)

Lemma stripRune_space e rest :
  In e spaceRunes -> stripRune spaceRunes (e ++ rest) = Some rest.
Proof.
  unfold spaceRunes. intros Hin. simpl in Hin.
  repeat (destruct Hin as [<- | Hin]; [reflexivity |]). contradiction.
Qed.

Lemma trimRunes_whitespace runes n :
  Forall (fun e => In e spaceRunes) runes ->
  length (concat runes) <= n ->
  trimRunes spaceRunes n (concat runes) = [].
Proof.
  intros Hr. revert n. induction Hr as [| e runes He _ IH]; intros n Hn.
  - now destruct n.
  - cbn [concat] in *. rewrite length_app in Hn.
    pose proof spaceRunes_nonempty as Hne. rewrite Forall_forall in Hne.
    assert (e <> []) by (apply Hne; now apply list_elem_of_In).
    destruct n as [| n]; [destruct e; [contradiction | simpl in Hn; lia] |].
    cbn [trimRunes]. rewrite stripRune_space by exact He.
    apply IH. destruct e; [contradiction | simpl in Hn; lia].
Qed.

Lemma TrimSpace_whitespace s : whitespace s -> TrimSpace s = [].
Proof.
  intros (runes & Hr & ->). unfold TrimSpace, trimLeftSpace.
  now rewrite trimRunes_whitespace.
Qed.

(** *** What every result of [SanitizeCommand] satisfies *)

Lemma SanitizeCommand_result x :
  TrimSpace (SanitizeCommand x) = SanitizeCommand x
  /\ ~ In "010"%char (SanitizeCommand x)
  /\ Contains (SanitizeCommand x) (SP ++ SP) = false.
Proof.
  unfold SanitizeCommand.
  set (v := fold_left removeLanguage languages _).
  split; [apply TrimSpace_idempotent | split].
  - intros H%TrimSpace_In.
    apply collapseSpaces_In in H as [H | H]; [| discriminate].
    now apply replace_LF_none in H.
  - apply TrimSpace_Contains, collapseSpaces_done. lia.
Qed.

(** A sanitized text that neither starts nor ends with a backtick is left as
    it is by the sanitizer. *)
Lemma SanitizeCommand_fixed y :
  TrimSpace y = y -> ~ In "010"%char y -> Contains y (SP ++ SP) = false ->
  Trim y (str "`") = y ->
  SanitizeCommand y = y.
Proof.
  intros Htrim Hlf Hsp Hbt. unfold SanitizeCommand. rewrite Htrim.
  assert (Hblock : removeCodeBlock y = y).
  { unfold removeCodeBlock.
    destruct (HasPrefix y (str "```")) eqn:Hp; [| reflexivity].
    exfalso. apply HasPrefix_app in Hp as [r ->].
    unfold Trim in Hbt. apply trimLeftBytes_head in Hbt. discriminate. }
  rewrite Hblock, Hbt, removeLanguages_no_LF by exact Hlf.
  rewrite ReplaceAll_absent.
  - now rewrite collapseSpaces_absent.
  - destruct (Contains y LF) eqn:Hc; [| reflexivity].
    now apply Contains_In in Hc.
Qed.

Lemma Contains_piece p u q sub :
  Contains (p ++ u ++ q) sub = false -> Contains u sub = false.
Proof.
  intros H. destruct (Contains u sub) eqn:Hc; [| reflexivity].
  now rewrite Contains_app_r in H by now apply Contains_app_l.
Qed.

Lemma trimLeftBytes_suffix cutset s :
  exists p, s = p ++ trimLeftBytes cutset s.
Proof.
  induction s as [| c s [p Hp]]; simpl; [now exists [] |].
  destruct (inCutset cutset c); [| now exists []].
  exists (c :: p). simpl. now rewrite <- Hp.
Qed.

(** [Trim] gives a piece of its argument. *)
Lemma Trim_piece s cutset : exists p q, s = p ++ Trim s cutset ++ q.
Proof.
  unfold Trim, trimRightBytes.
  destruct (trimLeftBytes_suffix cutset (rev s)) as [q Hq].
  destruct (trimLeftBytes_suffix cutset (rev (trimLeftBytes cutset (rev s))))
    as [p Hp].
  exists p, (rev q). rewrite app_assoc, <- Hp, <- rev_app_distr, <- Hq.
  now rewrite rev_involutive.
Qed.

(** *** Split *)

Lemma splitGo_no_LF cur s :
  ~ In "010"%char s -> splitGo LF 0 cur s = [rev cur ++ s].
Proof.
  revert cur. induction s as [| c s IH]; intros cur Hno; cbn [splitGo].
  - now rewrite app_nil_r.
  - simpl in Hno. change (HasPrefix (c :: s) LF)
      with (Ascii.eqb c "010" && true).
    destruct (Ascii.eqb_spec c "010"%char) as [-> | Hc]; [tauto |].
    cbn [andb]. rewrite IH by tauto. simpl. now rewrite <- app_assoc.
Qed.

Lemma removeCodeBlock_no_LF cmd :
  ~ In "010"%char cmd -> removeCodeBlock cmd = cmd.
Proof.
  intros Hno. unfold removeCodeBlock, Split.
  rewrite splitGo_no_LF by exact Hno.
  now destruct (HasPrefix cmd (str "```")).
Qed.

(** Sanitizing a sanitized text only trims its backticks and the white
    space they leave. *)
Lemma SanitizeCommand_again y :
  TrimSpace y = y -> ~ In "010"%char y -> Contains y (SP ++ SP) = false ->
  SanitizeCommand y = TrimSpace (Trim y (str "`")).
Proof.
  intros Htrim Hlf Hsp. unfold SanitizeCommand.
  rewrite Htrim, removeCodeBlock_no_LF by exact Hlf.
  destruct (Trim_piece y (str "`")) as (p & q & Hy).
  set (y' := Trim y (str "`")) in *.
  assert (Hlf' : ~ In "010"%char y').
  { intros H. apply Hlf. rewrite Hy, !in_app_iff. tauto. }
  rewrite removeLanguages_no_LF by exact Hlf'.
  rewrite ReplaceAll_absent.
  - rewrite collapseSpaces_absent; [reflexivity |].
    rewrite Hy in Hsp. now apply Contains_piece in Hsp.
  - destruct (Contains y' LF) eqn:Hc; [| reflexivity].
    now apply Contains_In in Hc.
Qed.

Lemma SanitizeCommand_fixed_iff y :
  TrimSpace y = y -> ~ In "010"%char y -> Contains y (SP ++ SP) = false ->
  SanitizeCommand y = y <-> Trim y (str "`") = y.
Proof.
  intros Htrim Hlf Hsp. rewrite SanitizeCommand_again by assumption.
  split.
  - intros H.
    destruct (Trim_piece y (str "`")) as (p & q & Hy).
    destruct (TrimSpace_piece (Trim y (str "`"))) as (p' & q' & Ht).
    rewrite H in Ht.
    assert (Hlen : length p = 0 /\ length q = 0).
    { apply (f_equal (@length ascii)) in Hy, Ht.
      rewrite !length_app in Hy, Ht. lia. }
    destruct Hlen as [Hp Hq].
    destruct p; [| discriminate]. destruct q; [| discriminate].
    simpl in Hy. now rewrite app_nil_r in Hy.
  - intros ->. exact Htrim.
Qed.

(** *** The loop of CleanCopilotResponse *)

Lemma blank_not_fence line : isBlankLine line = true -> isFenceLine line = false.
Proof.
  unfold isBlankLine, isFenceLine, gostring_eqb.
  intros H%bool_decide_eq_true. now rewrite H.
Qed.

Lemma fenceCount_cons line rest :
  fenceCount (line :: rest)
  = if isFenceLine line then S (fenceCount rest) else fenceCount rest.
Proof. unfold fenceCount. simpl. now destruct (isFenceLine line). Qed.

Lemma cleanLoop_spec lines cleaned inCodeBlock :
  fold_left cleanStep lines (cleaned, inCodeBlock)
  = (match cleaned with
     | [] => retainedLines lines
     | _ => cleaned ++ List.filter (fun l => negb (isFenceLine l)) lines
     end,
     xorb inCodeBlock (Nat.odd (fenceCount lines))).
Proof.
  revert cleaned inCodeBlock.
  induction lines as [| line lines IH]; intros cleaned b.
  - simpl. rewrite xorb_false_r. destruct cleaned; [reflexivity |].
    now rewrite app_nil_r.
  - cbn [fold_left]. rewrite fenceCount_cons. unfold cleanStep at 2.
    fold (isBlankLine line). fold (isFenceLine line).
    destruct ((length cleaned =? 0)%nat && isBlankLine line) eqn:Hskip.
    + apply andb_true_iff in Hskip as [Hlen Hblank].
      apply Nat.eqb_eq in Hlen. destruct cleaned; [| discriminate].
      rewrite IH. unfold retainedLines. simpl.
      rewrite (blank_not_fence _ Hblank). simpl. now rewrite Hblank.
    + destruct (isFenceLine line) eqn:Hfence.
      * rewrite IH. unfold retainedLines. simpl. rewrite Hfence. simpl.
        f_equal. rewrite Nat.odd_succ, <- Nat.negb_odd.
        now destruct b, (Nat.odd (fenceCount lines)).
      * rewrite orb_true_r, IH. unfold retainedLines. simpl.
        rewrite Hfence. simpl. f_equal.
        destruct cleaned as [| c cleaned]; simpl.
        -- simpl in Hskip. now rewrite Hskip.
        -- now rewrite <- app_assoc.
Qed.

(** ** The HTTP providers *)

(** Rewrites with the outcomes of the library calls assumed in the context
    and lets the query run on them. *)
Ltac run_query :=
  unfold queryOpenAICompatible, queryAnthropic;
  repeat match goal with
         | H : _ = Ok _ |- _ => rewrite H
         | H : _ = DoDone _ |- _ => rewrite H
         | H : _ = Done _ |- _ => rewrite H
         | H : _ = Failed _ |- _ => rewrite H
         | H : _ = Some _ |- _ => rewrite H
         | H : _ = None |- _ => rewrite H
         | H : @eq (list _) _ _ |- _ => rewrite H
         end;
  simpl.

Section Responses.
Variables (net : Net) (p : Provider).
Variables (apiKey model promptText : gostring).
Variables (req : Request) (resp : Response) (body : gostring).

Section OpenAICompatible.
Hypothesis Hreq : newChatRequest net p apiKey model promptText = Ok req.
Hypothesis Hdo : Do net req = DoDone resp.
Hypothesis Hbody : ReadAll resp = Done body.

Lemma chat_error_payload r e :
  UnmarshalChat net body = Done r -> chatError r = Some e ->
  queryOpenAICompatible net p apiKey model promptText
  = Err (ErrAPI (errMessage e)).
Proof. intros Hr He. now run_query. Qed.

Lemma chat_undecodable cause :
  UnmarshalChat net body = Failed cause ->
  queryOpenAICompatible net p apiKey model promptText
  = Err (ErrParse cause).
Proof. intros Hr. now run_query. Qed.

Lemma chat_bad_status r :
  UnmarshalChat net body = Done r -> chatError r = None ->
  StatusCode resp <> StatusOK ->
  queryOpenAICompatible net p apiKey model promptText
  = Err (ErrStatus (StatusCode resp) body).
Proof.
  intros Hr He Hs. run_query.
  destruct (Z.eqb_spec (StatusCode resp) StatusOK); [contradiction | easy].
Qed.
End OpenAICompatible.

Section Anthropic.
Hypothesis Hreq :
  newAnthropicRequest net p apiKey model promptText = Ok req.
Hypothesis Hdo : Do net req = DoDone resp.
Hypothesis Hbody : ReadAll resp = Done body.

Lemma anthropic_error_payload r e :
  UnmarshalAnthropic net body = Done r -> respError r = Some e ->
  queryAnthropic net p apiKey model promptText
  = Err (ErrAPI (aErrMessage e)).
Proof. intros Hr He. now run_query. Qed.

Lemma anthropic_undecodable cause :
  UnmarshalAnthropic net body = Failed cause ->
  queryAnthropic net p apiKey model promptText
  = Err (ErrParseBody cause body).
Proof. intros Hr. now run_query. Qed.

Lemma anthropic_bad_status r :
  UnmarshalAnthropic net body = Done r -> respError r = None ->
  StatusCode resp <> StatusOK ->
  queryAnthropic net p apiKey model promptText
  = Err (ErrStatus (StatusCode resp) body).
Proof.
  intros Hr He Hs. run_query.
  destruct (Z.eqb_spec (StatusCode resp) StatusOK); [contradiction | easy].
Qed.

(** What a decoded answer with status 200 and no error payload gives:
    only the first content block is looked at. *)
Lemma anthropic_success r :
  UnmarshalAnthropic net body = Done r -> respError r = None ->
  StatusCode resp = StatusOK ->
  queryAnthropic net p apiKey model promptText
  = match respContent r with
    | b :: _ =>
        if gostring_eqb (blockType b) (str "text")
        then Ok (blockText b)
        else Err (ErrNoResponse (str "Anthropic"))
    | [] => Err (ErrNoResponse (str "Anthropic"))
    end.
Proof. intros Hr He Hs. run_query. now rewrite Hs. Qed.
End Anthropic.
End Responses.

(** [Query] sends every provider that is not the CLI one to one of the two
    HTTP queries. *)
Lemma Query_http net h p apiKey model promptText :
  authType p <> AuthCLI ->
  Query net h p apiKey model promptText
  = if gostring_eqb (Name p) (str "Anthropic")
    then queryAnthropic net p apiKey model promptText
    else queryOpenAICompatible net p apiKey model promptText.
Proof. intros Hp. unfold Query. now case_bool_decide. Qed.

(** C2: when the body of the response decodes and carries an error payload,
    the query of an OpenAI-compatible provider and the query of Anthropic
    fail with the API error that carries the message of the payload, whatever
    the status code and the rest of the decoded response are. *)
Theorem C2_error_payload_gives_api_error :
  forall net p apiKey model promptText req resp body,
    Do net req = DoDone resp ->
    ReadAll resp = Done body ->
    (forall r e,
        newChatRequest net p apiKey model promptText = Ok req ->
        UnmarshalChat net body = Done r -> chatError r = Some e ->
        queryOpenAICompatible net p apiKey model promptText
        = Err (ErrAPI (errMessage e))
        /\ kind (ErrAPI (errMessage e)) = ApiError)
    /\ (forall r e,
        newAnthropicRequest net p apiKey model promptText = Ok req ->
        UnmarshalAnthropic net body = Done r -> respError r = Some e ->
        queryAnthropic net p apiKey model promptText
        = Err (ErrAPI (aErrMessage e))
        /\ kind (ErrAPI (aErrMessage e)) = ApiError).
Proof.
  intros net p apiKey model promptText req resp body Hdo Hbody.
  split; intros r e Hreq Hr He; (split; [| reflexivity]).
  - eapply chat_error_payload; eauto.
  - eapply anthropic_error_payload; eauto.
Qed.

(** The end-to-end example of the specification: status 401 and an error
    payload with the message [invalid key]. *)
Lemma C2_witness :
  queryOpenAICompatible invalidKeyNet (initialStore OpenAI) (str "k")
    (str "gpt-4o") (str "list files") = Err (ErrAPI (str "invalid key"))
  /\ queryAnthropic invalidKeyNet (initialStore Anthropic) (str "k")
       (str "claude-sonnet-4-20250514") (str "list files")
     = Err (ErrAPI (str "invalid key")).
Proof.
  split.
  - refine (proj1 (proj1 (C2_error_payload_gives_api_error invalidKeyNet
      (initialStore OpenAI) (str "k") (str "gpt-4o") (str "list files")
      _ _ _ eq_refl eq_refl) _ _ eq_refl eq_refl eq_refl)).
  - refine (proj1 (proj2 (C2_error_payload_gives_api_error invalidKeyNet
      (initialStore Anthropic) (str "k") (str "claude-sonnet-4-20250514")
      (str "list files") _ _ _ eq_refl eq_refl) _ _ eq_refl eq_refl
      eq_refl)).
Defined.

(** C3, as stated, fails: status 502 with a body that is not JSON makes both
    queries fail with the decode error, not with the API error that carries
    the status code and the body. *)
Lemma C3_counterexample :
  queryOpenAICompatible badGatewayNet (initialStore OpenAI) (str "k")
    (str "gpt-4o") (str "list files") = Err (ErrParse htmlCause)
  /\ queryAnthropic badGatewayNet (initialStore Anthropic) (str "k")
       (str "claude-sonnet-4-20250514") (str "list files")
     = Err (ErrParseBody htmlCause badGatewayBody)
  /\ kind (ErrParse htmlCause) = DecodeError
  /\ kind (ErrParseBody htmlCause badGatewayBody) = DecodeError
  /\ @Err gostring (ErrParse htmlCause) <> Err (ErrStatus 502 badGatewayBody)
  /\ @Err gostring (ErrParseBody htmlCause badGatewayBody)
     <> Err (ErrStatus 502 badGatewayBody).
Proof. repeat split; try reflexivity; discriminate. Qed.

(** C3, amended: a body that does not decode makes the query fail with the
    decode error whatever the status code is (the Anthropic query puts the
    body into it); the API error that carries the status code and the body
    is what a status other than 200 gives when the body decodes and holds no
    error payload. *)
Theorem C3_undecodable_body_gives_decode_error :
  forall net p apiKey model promptText req resp body,
    Do net req = DoDone resp ->
    ReadAll resp = Done body ->
    (newChatRequest net p apiKey model promptText = Ok req ->
     (forall cause,
         UnmarshalChat net body = Failed cause ->
         queryOpenAICompatible net p apiKey model promptText
         = Err (ErrParse cause)
         /\ kind (ErrParse cause) = DecodeError)
     /\ (forall r,
         UnmarshalChat net body = Done r -> chatError r = None ->
         StatusCode resp <> StatusOK ->
         queryOpenAICompatible net p apiKey model promptText
         = Err (ErrStatus (StatusCode resp) body)
         /\ kind (ErrStatus (StatusCode resp) body) = ApiError))
    /\ (newAnthropicRequest net p apiKey model promptText = Ok req ->
        (forall cause,
            UnmarshalAnthropic net body = Failed cause ->
            queryAnthropic net p apiKey model promptText
            = Err (ErrParseBody cause body)
            /\ kind (ErrParseBody cause body) = DecodeError)
        /\ (forall r,
            UnmarshalAnthropic net body = Done r -> respError r = None ->
            StatusCode resp <> StatusOK ->
            queryAnthropic net p apiKey model promptText
            = Err (ErrStatus (StatusCode resp) body)
            /\ kind (ErrStatus (StatusCode resp) body) = ApiError)).
Proof.
  intros net p apiKey model promptText req resp body Hdo Hbody.
  split; intros Hreq; split.
  - intros cause Hr. split; [| reflexivity].
    eapply chat_undecodable; eauto.
  - intros r Hr He Hs. split; [| reflexivity].
    eapply chat_bad_status; eauto.
  - intros cause Hr. split; [| reflexivity].
    eapply anthropic_undecodable; eauto.
  - intros r Hr He Hs. split; [| reflexivity].
    eapply anthropic_bad_status; eauto.
Qed.

Lemma C3_witness :
  queryOpenAICompatible badGatewayNet (initialStore OpenAI) (str "k")
    (str "gpt-4o") (str "list files") = Err (ErrParse htmlCause)
  /\ queryOpenAICompatible serverErrorNet (initialStore OpenAI) (str "k")
       (str "gpt-4o") (str "list files") = Err (ErrStatus 500 (str "{}"))
  /\ queryAnthropic badGatewayNet (initialStore Anthropic) (str "k")
       (str "claude-sonnet-4-20250514") (str "list files")
     = Err (ErrParseBody htmlCause badGatewayBody)
  /\ queryAnthropic serverErrorNet (initialStore Anthropic) (str "k")
       (str "claude-sonnet-4-20250514") (str "list files")
     = Err (ErrStatus 500 (str "{}")).
Proof.
  split; [| split; [| split]].
  - refine (proj1 (proj1 (proj1 (C3_undecodable_body_gives_decode_error
      badGatewayNet (initialStore OpenAI) (str "k") (str "gpt-4o")
      (str "list files") _ _ _ eq_refl eq_refl) eq_refl) _ eq_refl)).
  - refine (proj1 (proj2 (proj1 (C3_undecodable_body_gives_decode_error
      serverErrorNet (initialStore OpenAI) (str "k") (str "gpt-4o")
      (str "list files") _ _ _ eq_refl eq_refl) eq_refl) _ eq_refl eq_refl
      _)).
    discriminate.
  - refine (proj1 (proj1 (proj2 (C3_undecodable_body_gives_decode_error
      badGatewayNet (initialStore Anthropic) (str "k")
      (str "claude-sonnet-4-20250514") (str "list files") _ _ _ eq_refl
      eq_refl) eq_refl) _ eq_refl)).
  - refine (proj1 (proj2 (proj2 (C3_undecodable_body_gives_decode_error
      serverErrorNet (initialStore Anthropic) (str "k")
      (str "claude-sonnet-4-20250514") (str "list files") _ _ _ eq_refl
      eq_refl) eq_refl) _ eq_refl eq_refl _)).
    discriminate.
Defined.

(** C4, as stated, fails: with a thinking block before the text block the
    query fails although a text block is present. *)
Lemma C4_counterexample :
  queryAnthropic
    (contentNet [mkContentBlock (str "thinking") (str "the user wants ls");
                 mkContentBlock (str "text") (str "ls -la")])
    (initialStore Anthropic) (str "k") (str "claude-sonnet-4-20250514")
    (str "list files")
  = Err (ErrNoResponse (str "Anthropic"))
  /\ In (mkContentBlock (str "text") (str "ls -la"))
       [mkContentBlock (str "thinking") (str "the user wants ls");
        mkContentBlock (str "text") (str "ls -la")].
Proof. split; [reflexivity | right; left; reflexivity]. Qed.

(** C4, amended: for a decoded answer with status 200 and no error payload,
    the result is the text of the first content block when the type of that
    block is [text]; the query fails with the empty-response error exactly
    when the list is empty or its first block has another type. *)
Theorem C4_first_block_decides :
  forall net p apiKey model promptText req resp body r,
    newAnthropicRequest net p apiKey model promptText = Ok req ->
    Do net req = DoDone resp ->
    ReadAll resp = Done body ->
    UnmarshalAnthropic net body = Done r ->
    respError r = None ->
    StatusCode resp = StatusOK ->
    (forall b rest,
        respContent r = b :: rest -> blockType b = str "text" ->
        queryAnthropic net p apiKey model promptText = Ok (blockText b))
    /\ (queryAnthropic net p apiKey model promptText
        = Err (ErrNoResponse (str "Anthropic"))
        <-> ~ exists b rest,
              respContent r = b :: rest /\ blockType b = str "text")
    /\ kind (ErrNoResponse (str "Anthropic")) = EmptyResponse.
Proof.
  intros net p apiKey model promptText req resp body r
    Hreq Hdo Hbody Hr He Hs.
  rewrite (anthropic_success net p apiKey model promptText req resp body
             Hreq Hdo Hbody r Hr He Hs).
  split; [| split; [split | reflexivity]].
  - intros b rest Hc Ht. rewrite Hc. unfold gostring_eqb.
    now rewrite bool_decide_eq_true_2.
  - destruct (respContent r) as [| b rest].
    + intros _ (b & rest & Hc & _). discriminate.
    + unfold gostring_eqb. case_bool_decide as Ht; [discriminate |].
      intros _ (b' & rest' & Hc & Ht'). inversion Hc; subst. contradiction.
  - intros Hno. destruct (respContent r) as [| b rest]; [reflexivity |].
    unfold gostring_eqb. case_bool_decide as Ht; [| reflexivity].
    exfalso. apply Hno. now exists b, rest.
Qed.

Lemma C4_witness :
  queryAnthropic (contentNet [mkContentBlock (str "text") (str "ls -la")])
    (initialStore Anthropic) (str "k") (str "claude-sonnet-4-20250514")
    (str "list files")
  = Ok (str "ls -la").
Proof.
  refine (proj1 (C4_first_block_decides
    (contentNet [mkContentBlock (str "text") (str "ls -la")])
    (initialStore Anthropic) (str "k") (str "claude-sonnet-4-20250514")
    (str "list files") _ _ _ _ eq_refl eq_refl eq_refl eq_refl eq_refl
    eq_refl) _ _ eq_refl eq_refl).
Defined.

(** ** The registry *)

Lemma sameDescriptors_fields st r :
  sameDescriptors st ->
  Name (st r) = Name (initialStore r)
  /\ DefaultModel (st r) = DefaultModel (initialStore r)
  /\ EnvVar (st r) = EnvVar (initialStore r).
Proof.
  intros H. specialize (H r). unfold descriptor in H.
  now inversion H.
Qed.

Lemma sameDescriptors_initial : sameDescriptors initialStore.
Proof. intros r. reflexivity. Qed.

Lemma setConfigured_descriptor st p r :
  descriptor (setConfigured st p r) = descriptor (st r).
Proof. unfold setConfigured. now case_bool_decide. Qed.

Lemma setConfigured_sameDescriptors st p :
  sameDescriptors st -> sameDescriptors (setConfigured st p).
Proof. intros H r. rewrite setConfigured_descriptor. apply H. Qed.

Lemma setConfigured_self st p : Configured (setConfigured st p p) = true.
Proof. unfold setConfigured. now rewrite bool_decide_eq_true_2. Qed.

Lemma setConfigured_keeps st p r :
  Configured (st r) = true -> Configured (setConfigured st p r) = true.
Proof. unfold setConfigured. now case_bool_decide. Qed.

(** The loop of [Detect] stops at the first provider of the list whose
    variable is set: the providers before it have an empty variable. *)
Lemma detectLoop_first h ps st p key st' :
  detectLoop h ps st = Some (p, key, st') <->
  exists before after,
    ps = before ++ p :: after
    /\ Forall (fun q => Getenv h (EnvVar (st q)) = []) before
    /\ key = Getenv h (EnvVar (st p)) /\ key <> []
    /\ st' = setConfigured st p.
Proof.
  induction ps as [| q ps IH]; simpl.
  - split; [discriminate |].
    intros (before & after & Hps & _). now destruct before.
  - unfold gostring_eqb. case_bool_decide as Hq; simpl.
    + rewrite IH. split.
      * intros (before & after & -> & Hb & Hk & Hne & Hst).
        exists (q :: before), after. repeat split; auto.
      * intros (before & after & Hps & Hb & Hk & Hne & Hst).
        destruct before as [| q' before]; simpl in Hps; inversion Hps; subst.
        -- contradiction.
        -- inversion Hb; subst. now exists before, after.
    + split.
      * intros [= <- <- <-]. exists [], ps. repeat split; auto.
      * intros (before & after & Hps & Hb & Hk & Hne & Hst).
        destruct before as [| q' before]; simpl in Hps; inversion Hps; subst.
        -- reflexivity.
        -- inversion Hb; subst. contradiction.
Qed.

Lemma detectLoop_none h ps st :
  detectLoop h ps st = None <->
  Forall (fun q => Getenv h (EnvVar (st q)) = []) ps.
Proof.
  induction ps as [| q ps IH]; simpl.
  - split; auto.
  - unfold gostring_eqb. case_bool_decide as Hq; simpl.
    + rewrite IH. split; [now constructor | now inversion 1].
    + split; [discriminate | now inversion 1].
Qed.

Lemma Detect_cascade h st :
  sameDescriptors st -> (Detect h st).1 = detectCascade h.
Proof.
  intros Hst. unfold Detect, detectCascade, apiProviders, detectLoop.
  destruct (sameDescriptors_fields st OpenAI Hst) as (_ & _ & ->).
  destruct (sameDescriptors_fields st Anthropic Hst) as (_ & _ & ->).
  destruct (sameDescriptors_fields st Gemini Hst) as (_ & _ & ->).
  destruct (sameDescriptors_fields st DeepSeek Hst) as (_ & _ & ->).
  change (EnvVar (initialStore OpenAI)) with (str "OPENAI_API_KEY").
  change (EnvVar (initialStore Anthropic)) with (str "ANTHROPIC_API_KEY").
  change (EnvVar (initialStore Gemini)) with (str "GEMINI_API_KEY").
  change (EnvVar (initialStore DeepSeek)) with (str "DEEPSEEK_API_KEY").
  repeat (match goal with
          | |- context [negb (gostring_eqb ?k [])] =>
              destruct (negb (gostring_eqb k [])); [reflexivity |]
          end).
  now destruct (IsCopilotAvailable h).
Qed.

(** C5: [Detect] scans the API-key providers in the order OpenAI, Anthropic,
    Gemini, DeepSeek and returns the first whose variable is not empty,
    with the value of that variable, so that of several variables that are
    set the first in this order wins; when none is set it returns GitHub
    Copilot with an empty credential if the CLI is available, and no
    provider otherwise. *)
Theorem C5_detect_priority :
  forall h st,
    sameDescriptors st ->
    (Detect h st).1 = detectCascade h
    /\ (forall p key,
           (Detect h st).1 = (Some p, key) -> In p apiProviders ->
           exists before after,
             apiProviders = before ++ p :: after
             /\ Forall (fun q => Getenv h (EnvVar (initialStore q)) = [])
                  before
             /\ key = Getenv h (EnvVar (initialStore p)) /\ key <> []).
Proof.
  intros h st Hst. split; [now apply Detect_cascade |].
  intros p key HD Hin. unfold Detect in HD.
  destruct (detectLoop h apiProviders st) as [[[q k] st'] |] eqn:Hloop.
  - simpl in HD. inversion HD; subst q k.
    apply detectLoop_first in Hloop
      as (before & after & Hps & Hb & Hk & Hne & _).
    exists before, after. repeat split; auto.
    + eapply Forall_impl; [exact Hb |]. intros q Hq. simpl in Hq.
      now destruct (sameDescriptors_fields st q Hst) as (_ & _ & <-).
    + now destruct (sameDescriptors_fields st p Hst) as (_ & _ & <-).
  - exfalso. destruct (IsCopilotAvailable h); simpl in HD; inversion HD.
    subst p. unfold apiProviders in Hin. simpl in Hin.
    repeat destruct Hin as [Hin | Hin]; try discriminate; auto.
Qed.

(** With the variables of OpenAI and Anthropic both set, as in the test of
    the priority, OpenAI is selected. *)
Lemma C5_witness :
  (Detect (envHost [("ANTHROPIC_API_KEY", "anthropic-key");
                    ("OPENAI_API_KEY", "openai-key")]%string)
     initialStore).1
  = (Some OpenAI, str "openai-key").
Proof.
  refine (eq_trans (proj1 (C5_detect_priority
    (envHost [("ANTHROPIC_API_KEY", "anthropic-key");
              ("OPENAI_API_KEY", "openai-key")]%string)
    initialStore _)) _).
  - intros r. reflexivity.
  - vm_compute. reflexivity.
Defined.

(** ** Sequences of calls and the configured flag *)

Lemma Detect_sameDescriptors h st :
  sameDescriptors st -> sameDescriptors (Detect h st).2.
Proof.
  intros Hst. unfold Detect.
  destruct (detectLoop h apiProviders st) as [[[q k] st'] |] eqn:Hloop.
  - apply detectLoop_first in Hloop as (_ & _ & _ & _ & _ & _ & ->).
    now apply setConfigured_sameDescriptors.
  - destruct (IsCopilotAvailable h); simpl; auto.
    now apply setConfigured_sameDescriptors.
Qed.

Lemma Detect_keeps h st r :
  Configured (st r) = true -> Configured ((Detect h st).2 r) = true.
Proof.
  intros Hr. unfold Detect.
  destruct (detectLoop h apiProviders st) as [[[q k] st'] |] eqn:Hloop.
  - apply detectLoop_first in Hloop as (_ & _ & _ & _ & _ & _ & ->).
    now apply setConfigured_keeps.
  - destruct (IsCopilotAvailable h); simpl; auto.
    now apply setConfigured_keeps.
Qed.

(** The store the loop of [GetByName] leaves is the store it was given, or
    that store with one more flag set. *)
Lemma getByNameLoop_store h name ps st r st' :
  getByNameLoop h name ps st = Some (r, st') ->
  st' = st \/ exists p, st' = setConfigured st p.
Proof.
  induction ps as [| q ps IH]; simpl; [discriminate |].
  destruct (gostring_eqb (Name (st q)) name); [| exact IH].
  destruct (gostring_eqb (Getenv h (EnvVar (st q))) []);
    intros [= <- <-]; eauto.
Qed.

Lemma GetByName_store h name st :
  (GetByName h name st).2 = st
  \/ exists p, (GetByName h name st).2 = setConfigured st p.
Proof.
  unfold GetByName.
  destruct (getByNameLoop h name apiProviders st) as [[r st'] |] eqn:Hloop.
  - now apply getByNameLoop_store in Hloop.
  - destruct (_ || _); [| now left].
    destruct (negb (IsCopilotAvailable h)); simpl; eauto.
Qed.

Lemma call_sameDescriptors h c st :
  sameDescriptors st -> sameDescriptors (call h c st).
Proof.
  intros Hst. destruct c as [| name |]; simpl; auto.
  - now apply Detect_sameDescriptors.
  - destruct (GetByName_store h name st) as [-> | [p ->]]; auto.
    now apply setConfigured_sameDescriptors.
Qed.

Lemma call_keeps h c st r :
  Configured (st r) = true -> Configured (call h c st r) = true.
Proof.
  intros Hr. destruct c as [| name |]; simpl; auto.
  - now apply Detect_keeps.
  - destruct (GetByName_store h name st) as [-> | [p ->]]; auto.
    now apply setConfigured_keeps.
Qed.

Lemma run_sameDescriptors trace st :
  sameDescriptors st -> sameDescriptors (run trace st).
Proof.
  revert st. induction trace as [| [h c] trace IH]; intros st Hst; simpl.
  - exact Hst.
  - apply IH. now apply call_sameDescriptors.
Qed.

(** A flag that is set stays set through every sequence of calls. *)
Lemma run_keeps trace st r :
  Configured (st r) = true -> Configured (run trace st r) = true.
Proof.
  revert st. induction trace as [| [h c] trace IH]; intros st Hr; simpl.
  - exact Hr.
  - apply IH. now apply call_keeps.
Qed.

Lemma Detect_marks h st p :
  (Detect h st).1.1 = Some p -> Configured ((Detect h st).2 p) = true.
Proof.
  unfold Detect.
  destruct (detectLoop h apiProviders st) as [[[q k] st'] |] eqn:Hloop.
  - apply detectLoop_first in Hloop as (_ & _ & _ & _ & _ & _ & ->).
    simpl. intros [= ->]. apply setConfigured_self.
  - destruct (IsCopilotAvailable h); simpl; [| discriminate].
    intros [= <-]. apply setConfigured_self.
Qed.

Lemma getByNameLoop_marks h name ps st p key st' :
  getByNameLoop h name ps st = Some (Ok (p, key), st') ->
  st' = setConfigured st p.
Proof.
  induction ps as [| q ps IH]; simpl; [discriminate |].
  destruct (gostring_eqb (Name (st q)) name); [| exact IH].
  destruct (gostring_eqb (Getenv h (EnvVar (st q))) []); [discriminate |].
  now intros [= <- <- <-].
Qed.

Lemma GetByName_marks h name st p key :
  (GetByName h name st).1 = Ok (p, key) ->
  Configured ((GetByName h name st).2 p) = true.
Proof.
  unfold GetByName.
  destruct (getByNameLoop h name apiProviders st) as [[r st'] |] eqn:Hloop.
  - simpl. intros ->. apply getByNameLoop_marks in Hloop as ->.
    apply setConfigured_self.
  - destruct (_ || _); [| discriminate].
    destruct (negb (IsCopilotAvailable h)); simpl; [discriminate |].
    intros [= <- _]. apply setConfigured_self.
Qed.

(** What the loop of [GetByName] returns does not depend on the flags. *)
Lemma getByNameLoop_result h name ps st :
  sameDescriptors st ->
  fst <$> getByNameLoop h name ps st
  = fst <$> getByNameLoop h name ps initialStore.
Proof.
  intros Hst. induction ps as [| q ps IH]; simpl; [reflexivity |].
  destruct (sameDescriptors_fields st q Hst) as (-> & _ & ->).
  destruct (gostring_eqb (Name (initialStore q)) name); [| exact IH].
  now destruct (gostring_eqb (Getenv h (EnvVar (initialStore q))) []).
Qed.

Lemma GetByName_result h name st :
  sameDescriptors st ->
  (GetByName h name st).1 = (GetByName h name initialStore).1.
Proof.
  intros Hst. unfold GetByName.
  pose proof (getByNameLoop_result h name apiProviders st Hst) as Hloop.
  destruct (sameDescriptors_fields st GitHubCopilot Hst) as (-> & _ & _).
  destruct (getByNameLoop h name apiProviders st) as [[r st'] |];
    destruct (getByNameLoop h name apiProviders initialStore)
      as [[r0 st0] |]; simpl in Hloop; try discriminate.
  - now inversion Hloop.
  - destruct (_ || _); [| reflexivity].
    now destruct (negb (IsCopilotAvailable h)).
Qed.

Lemma ListAll_result h st :
  sameDescriptors st -> ListAll h st = ListAll h initialStore.
Proof.
  intros Hst. unfold ListAll, apiProviders. simpl.
  destruct (sameDescriptors_fields st OpenAI Hst) as (-> & -> & ->).
  destruct (sameDescriptors_fields st Anthropic Hst) as (-> & -> & ->).
  destruct (sameDescriptors_fields st Gemini Hst) as (-> & -> & ->).
  destruct (sameDescriptors_fields st DeepSeek Hst) as (-> & -> & ->).
  destruct (sameDescriptors_fields st GitHubCopilot Hst) as (-> & -> & _).
  reflexivity.
Qed.

(** C8, as stated, fails: after a [Detect] that found the key of OpenAI, the
    descriptor of OpenAI is still flagged once the key is gone and [Detect]
    is called again, while the same call in the same environment leaves it
    unflagged when nothing came before. *)
Lemma C8_counterexample :
  Configured
    (run [(envHost [("OPENAI_API_KEY", "test-key")]%string, CallDetect);
          (envHost [], CallDetect)] initialStore OpenAI) = true
  /\ Configured (run [(envHost [], CallDetect)] initialStore OpenAI) = false.
Proof. split; vm_compute; reflexivity. Qed.

(** C8, amended: what the calls return depends only on the environment at
    the moment of the call, not on earlier calls: the provider and the
    credential of [Detect] and [GetByName], and the records of [ListAll],
    whose configured column is computed from the environment.  The
    [Configured] field of a descriptor is set in place on the descriptor that
    [Detect] or [GetByName] returns, and once set it stays set through every
    later sequence of calls, whatever the environment becomes. *)
Theorem C8_results_fresh_flag_sticky :
  forall h st1 st2,
    sameDescriptors st1 -> sameDescriptors st2 ->
    (Detect h st1).1 = (Detect h st2).1
    /\ (forall name, (GetByName h name st1).1 = (GetByName h name st2).1)
    /\ ListAll h st1 = ListAll h st2
    /\ map infoConfigured (ListAll h st1)
       = map (fun p =>
                negb (gostring_eqb (Getenv h (EnvVar (initialStore p))) []))
             apiProviders
         ++ [IsCopilotAvailable h]
    /\ (forall p, (Detect h st1).1.1 = Some p ->
                  Configured ((Detect h st1).2 p) = true)
    /\ (forall name p key,
           (GetByName h name st1).1 = Ok (p, key) ->
           Configured ((GetByName h name st1).2 p) = true)
    /\ (forall trace r,
           Configured (st1 r) = true ->
           Configured (run trace st1 r) = true).
Proof.
  intros h st1 st2 H1 H2. repeat apply conj.
  - now rewrite !Detect_cascade.
  - intros name. now rewrite (GetByName_result h name st1),
      (GetByName_result h name st2).
  - now rewrite (ListAll_result h st1), (ListAll_result h st2).
  - now rewrite (ListAll_result h st1).
  - intros p. apply Detect_marks.
  - intros name p key. apply GetByName_marks.
  - intros trace r. apply run_keeps.
Qed.

(** After a [Detect] that found the key of OpenAI, a [Detect] without any
    key returns what it returns on the initial store. *)
Lemma C8_witness :
  (Detect (envHost [])
     (run [(envHost [("OPENAI_API_KEY", "test-key")]%string, CallDetect)]
        initialStore)).1
  = (Detect (envHost []) initialStore).1.
Proof.
  refine (proj1 (C8_results_fresh_flag_sticky (envHost [])
    (run [(envHost [("OPENAI_API_KEY", "test-key")]%string, CallDetect)]
       initialStore)
    initialStore _ _)).
  - apply run_sameDescriptors, sameDescriptors_initial.
  - apply sameDescriptors_initial.
Defined.

(** ** The timeout *)

(** C9: a flag value (a positive duration) wins over the variable
    [HOWTO_TIMEOUT]; without a flag, a variable that is set and parses gives
    the timeout; without a flag and with a variable that is absent, empty or
    does not parse, the timeout is the default of 30 seconds. *)
Theorem C9_timeout_precedence :
  forall (ParseDuration : gostring -> option Z) h flagTimeout,
    ((0 < flagTimeout)%Z ->
     GetTimeout ParseDuration h flagTimeout = flagTimeout)
    /\ ((flagTimeout <= 0)%Z ->
        forall d,
          Getenv h TimeoutEnvVar <> [] ->
          ParseDuration (Getenv h TimeoutEnvVar) = Some d ->
          GetTimeout ParseDuration h flagTimeout = d)
    /\ ((flagTimeout <= 0)%Z ->
        Getenv h TimeoutEnvVar = []
        \/ ParseDuration (Getenv h TimeoutEnvVar) = None ->
        GetTimeout ParseDuration h flagTimeout = DefaultTimeout)
    /\ DefaultTimeout = (30 * 1000000000)%Z
    /\ TimeoutEnvVar = str "HOWTO_TIMEOUT".
Proof.
  intros PD h flag. unfold GetTimeout, gostring_eqb.
  repeat apply conj; try reflexivity.
  - intros Hpos. now destruct (Z.ltb_spec 0 flag); [| lia].
  - intros Hno d Hset Hd. destruct (Z.ltb_spec 0 flag); [lia |].
    case_bool_decide; [contradiction |]. simpl. now rewrite Hd.
  - intros Hno Henv. destruct (Z.ltb_spec 0 flag); [lia |].
    case_bool_decide; [reflexivity |]. simpl.
    destruct Henv as [Henv | Henv]; [contradiction |]. now rewrite Henv.
Qed.

Lemma C9_witness :
  GetTimeout testParseDuration
    (envHost [("HOWTO_TIMEOUT", "45s")]%string) (60 * Second)
  = (60 * Second)%Z
  /\ GetTimeout testParseDuration
       (envHost [("HOWTO_TIMEOUT", "45s")]%string) 0
     = (45 * Second)%Z
  /\ GetTimeout testParseDuration
       (envHost [("HOWTO_TIMEOUT", "invalid")]%string) 0
     = DefaultTimeout
  /\ GetTimeout testParseDuration (envHost []) 0 = DefaultTimeout.
Proof.
  split; [| split; [| split]].
  - refine (proj1 (C9_timeout_precedence testParseDuration
      (envHost [("HOWTO_TIMEOUT", "45s")]%string) (60 * Second)%Z) _).
    reflexivity.
  - refine (proj1 (proj2 (C9_timeout_precedence testParseDuration
      (envHost [("HOWTO_TIMEOUT", "45s")]%string) 0%Z)) _ _ _ _).
    + discriminate.
    + vm_compute. discriminate.
    + vm_compute. reflexivity.
  - refine (proj1 (proj2 (proj2 (C9_timeout_precedence testParseDuration
      (envHost [("HOWTO_TIMEOUT", "invalid")]%string) 0%Z))) _ _).
    + discriminate.
    + right. vm_compute. reflexivity.
  - refine (proj1 (proj2 (proj2 (C9_timeout_precedence testParseDuration
      (envHost []) 0%Z))) _ _).
    + discriminate.
    + left. vm_compute. reflexivity.
Defined.

(** ** GitHub Copilot *)

(** C10: [queryCopilot] tests the trimmed output of the subprocess for
    emptiness before it cleans it, and returns the cleaned text without a
    second test: whenever the run succeeds with an output that is not blank,
    the query succeeds.  An output made of two fence lines is not blank and
    cleans to nothing, so the query succeeds there with the empty string
    instead of failing with the empty-response error. *)
Theorem C10_copilot_checks_before_cleaning :
  forall h p apiKey model promptText ghPath,
    LookPath h (str "gh") = Some ghPath ->
    runErr (Run h ghPath (copilotArgs model promptText)) = None ->
    TrimSpace (Stdout (Run h ghPath (copilotArgs model promptText))) <> [] ->
    queryCopilot h p apiKey model promptText
    = Ok (CleanCopilotResponse
            (TrimSpace (Stdout (Run h ghPath (copilotArgs model promptText)))))
    /\ TrimSpace (lines ["```"; "```"]) <> []
    /\ CleanCopilotResponse (TrimSpace (lines ["```"; "```"])) = [].
Proof.
  intros h p apiKey model promptText ghPath Hgh Hrun Hout.
  split; [| split; [vm_compute; discriminate | vm_compute; reflexivity]].
  unfold queryCopilot. rewrite Hgh. simpl. rewrite Hrun.
  unfold gostring_eqb. now case_bool_decide.
Qed.

Lemma C10_witness :
  queryCopilot (copilotHost (lines ["```"; "```"]))
    (initialStore GitHubCopilot) [] (str "gpt-4") (str "list files")
  = Ok [].
Proof.
  refine (proj1 (C10_copilot_checks_before_cleaning
    (copilotHost (lines ["```"; "```"])) (initialStore GitHubCopilot) []
    (str "gpt-4") (str "list files") (str "/usr/bin/gh") _ _ _)).
  - reflexivity.
  - reflexivity.
  - vm_compute. discriminate.
Defined.

(** ** The sanitizer of the commands *)

(** The identifier in lower case and the identifier in upper case are cut
    off by their round of the loop. *)
Lemma removeLanguage_lower lang rest :
  In lang languages ->
  removeLanguage (lang ++ LF ++ rest) lang
  = TrimPrefix rest (ToUpper lang ++ LF).
Proof.
  unfold languages. intros Hin. simpl in Hin.
  repeat (destruct Hin as [<- | Hin]; [reflexivity |]). contradiction.
Qed.

Lemma removeLanguage_upper lang rest :
  In lang languages ->
  removeLanguage (ToUpper lang ++ LF ++ rest) lang = rest.
Proof.
  unfold languages. intros Hin. simpl in Hin.
  repeat (destruct Hin as [<- | Hin]; [reflexivity |]). contradiction.
Qed.

(** C6 fails on the code: the test for a language identifier ignores the
    case, but only the identifier in lower case and the identifier in upper
    case are cut off, so that an identifier in mixed case stays in the
    result. *)
Theorem C6_mixed_case_identifier_stays :
  SanitizeCommand (lines ["Bash"; "ls -la"]) = str "Bash ls -la"
  /\ SanitizeCommand (lines ["Sh"; "ls -la"]) = str "Sh ls -la"
  /\ HasPrefix (ToLower (lines ["Bash"; "ls -la"])) (str "bash" ++ LF) = true
  /\ removeLanguage (lines ["Bash"; "ls -la"]) (str "bash")
     = lines ["Bash"; "ls -la"]
  /\ SanitizeCommand (lines ["bash"; "ls -la"]) = str "ls -la"
  /\ SanitizeCommand (lines ["BASH"; "ls -la"]) = str "ls -la"
  /\ SanitizeCommand (lines ["POWERSHELL"; "Get-ChildItem"])
     = str "Get-ChildItem".
Proof. repeat apply conj; vm_compute; reflexivity. Qed.

Lemma dropBlank_sublist (ls : list gostring) : sublist (dropBlank ls) ls.
Proof.
  induction ls as [| l ls IH]; simpl; [constructor |].
  destruct (isBlankLine l); [now apply sublist_cons | reflexivity].
Qed.

Lemma filter_sublist {A} (f : A -> bool) (ls : list A) :
  sublist (List.filter f ls) ls.
Proof.
  induction ls as [| l ls IH]; simpl; [constructor |].
  destruct (f l); [now apply sublist_skip | now apply sublist_cons].
Qed.

Lemma retainedLines_sublist ls : sublist (retainedLines ls) ls.
Proof.
  unfold retainedLines.
  etransitivity; [apply dropBlank_sublist | apply filter_sublist].
Qed.



(** The fence stage of [SanitizeCommand] on a text of more than two lines
    that starts with a fence: the first and the last line go, every line in
    between stays. *)
Lemma removeCodeBlock_inner cmd first mid last :
  HasPrefix cmd fence = true ->
  Split cmd LF = first :: mid ++ [last] -> mid <> [] ->
  removeCodeBlock cmd = Join mid LF.
Proof.
  intros Hp Hs Hmid. unfold removeCodeBlock. fold fence. rewrite Hp, Hs.
  assert (Hlen : length (first :: mid ++ [last]) = S (S (length mid))).
  { cbn [length]. rewrite length_app. cbn [length]. lia. }
  rewrite Hlen.
  assert (0 < length mid) by (destruct mid; [contradiction | simpl; lia]).
  destruct (Nat.ltb_spec 2 (S (S (length mid)))); [| lia].
  change (first :: mid ++ [last]) with ((first :: mid) ++ [last]).
  rewrite take_app_length' by (simpl; lia). reflexivity.
Qed.

Lemma removeCodeBlock_unchanged cmd :
  HasPrefix cmd fence = false \/ length (Split cmd LF) <= 2 ->
  removeCodeBlock cmd = cmd.
Proof.
  unfold removeCodeBlock. fold fence. intros [-> | Hlen]; [reflexivity |].
  destruct (HasPrefix cmd fence); [| reflexivity].
  now destruct (Nat.ltb_spec 2 (length (Split cmd LF))); [lia |].
Qed.




(** C7, as stated, fails: a backtick that the first pass uncovers is cut by
    the second pass only. *)
Lemma C7_counterexample :
  SanitizeCommand (str "` `a") = str "`a"
  /\ SanitizeCommand (SanitizeCommand (str "` `a")) = str "a"
  /\ SanitizeCommand (SanitizeCommand (str "` `a"))
     <> SanitizeCommand (str "` `a").
Proof.
  split; [| split]; try (vm_compute; reflexivity).
  vm_compute. discriminate.
Qed.

(** C7, amended: the sanitizer is a total function whose loops run to their
    end: its result is trimmed and holds no line break and no two spaces in
    a row.  The result for the empty string and for every text made of white
    space only is the empty string.  A second pass only trims the backticks
    at the two ends of the result of the first and the white space they
    leave, so [sanitize (sanitize x) = sanitize x] holds exactly when the
    result of the first pass neither starts nor ends with a backtick; it
    holds for every input of the test table. *)
Theorem C7_sanitize_second_pass :
  (forall x,
      TrimSpace (SanitizeCommand x) = SanitizeCommand x
      /\ ~ In "010"%char (SanitizeCommand x)
      /\ Contains (SanitizeCommand x) (SP ++ SP) = false)
  /\ SanitizeCommand [] = []
  /\ (forall x, whitespace x -> SanitizeCommand x = [])
  /\ (forall x,
         SanitizeCommand (SanitizeCommand x)
         = TrimSpace (Trim (SanitizeCommand x) (str "`")))
  /\ (forall x,
         SanitizeCommand (SanitizeCommand x) = SanitizeCommand x
         <-> Trim (SanitizeCommand x) (str "`") = SanitizeCommand x)
  /\ Forall (fun x => SanitizeCommand (SanitizeCommand x) = SanitizeCommand x)
       sanitizeTestInputs.
Proof.
  repeat apply conj.
  - apply SanitizeCommand_result.
  - reflexivity.
  - intros x Hx. unfold SanitizeCommand.
    rewrite (TrimSpace_whitespace x Hx). reflexivity.
  - intros x. destruct (SanitizeCommand_result x) as (H1 & H2 & H3).
    now apply SanitizeCommand_again.
  - intros x. destruct (SanitizeCommand_result x) as (H1 & H2 & H3).
    now apply SanitizeCommand_fixed_iff.
  - unfold sanitizeTestInputs.
    repeat (constructor; [vm_compute; reflexivity |]). constructor.
Qed.

(** The white space of the tests, three spaces, two line breaks and three
    spaces, is sanitized to the empty string. *)
Lemma C7_witness : SanitizeCommand (lines ["   "; ""; "   "]) = [].
Proof.
  refine (proj1 (proj2 (proj2 C7_sanitize_second_pass))
            (lines ["   "; ""; "   "]) _).
  exists (map (fun c => [c]) (lines ["   "; ""; "   "])).
  split.
  - vm_compute.
    repeat (constructor;
            [repeat (first [left; reflexivity | right]) |]).
    constructor.
  - reflexivity.
Defined.

(** * Further properties of the code *)

Import ui cmd notions.


(** ** The registry: lookups by name *)

(** The seven names [GetByName] knows. *)
Lemma GetByName_initial h name :
  (GetByName h name initialStore).1
  = if gostring_eqb (str "OpenAI") name then
      if gostring_eqb (Getenv h (str "OPENAI_API_KEY")) []
      then Err (ErrRequiresEnv name (str "OPENAI_API_KEY"))
      else Ok (OpenAI, Getenv h (str "OPENAI_API_KEY"))
    else if gostring_eqb (str "Anthropic") name then
      if gostring_eqb (Getenv h (str "ANTHROPIC_API_KEY")) []
      then Err (ErrRequiresEnv name (str "ANTHROPIC_API_KEY"))
      else Ok (Anthropic, Getenv h (str "ANTHROPIC_API_KEY"))
    else if gostring_eqb (str "Gemini") name then
      if gostring_eqb (Getenv h (str "GEMINI_API_KEY")) []
      then Err (ErrRequiresEnv name (str "GEMINI_API_KEY"))
      else Ok (Gemini, Getenv h (str "GEMINI_API_KEY"))
    else if gostring_eqb (str "DeepSeek") name then
      if gostring_eqb (Getenv h (str "DEEPSEEK_API_KEY")) []
      then Err (ErrRequiresEnv name (str "DEEPSEEK_API_KEY"))
      else Ok (DeepSeek, Getenv h (str "DEEPSEEK_API_KEY"))
    else if gostring_eqb name (str "GitHub Copilot")
            || gostring_eqb name (str "Copilot")
            || gostring_eqb name (str "copilot") then
      if negb (IsCopilotAvailable h) then Err ErrCopilotCLIUnavailable
      else Ok (GitHubCopilot, [])
    else Err (ErrUnknownProvider name).
Proof.
  unfold GetByName, apiProviders, getByNameLoop.
  change (Name (initialStore OpenAI)) with (str "OpenAI").
  change (Name (initialStore Anthropic)) with (str "Anthropic").
  change (Name (initialStore Gemini)) with (str "Gemini").
  change (Name (initialStore DeepSeek)) with (str "DeepSeek").
  change (Name (initialStore GitHubCopilot)) with (str "GitHub Copilot").
  change (EnvVar (initialStore OpenAI)) with (str "OPENAI_API_KEY").
  change (EnvVar (initialStore Anthropic)) with (str "ANTHROPIC_API_KEY").
  change (EnvVar (initialStore Gemini)) with (str "GEMINI_API_KEY").
  change (EnvVar (initialStore DeepSeek)) with (str "DEEPSEEK_API_KEY").
  repeat match goal with
         | |- context [if gostring_eqb ?a ?b then _ else _] =>
             destruct (gostring_eqb a b); try reflexivity
         end.
  all: destruct (_ || _); try reflexivity.
  all: now destruct (negb (IsCopilotAvailable h)).
Qed.

Ltac name_cases :=
  unfold gostring_eqb;
  repeat (case_bool_decide; simpl; subst; try discriminate; try tauto).

(** X1: [GetByName] fails with the unknown-provider error exactly for the
    names outside the seven it knows; the match is case-sensitive. *)
Theorem GetByName_unknown_iff :
  forall h name st,
    sameDescriptors st ->
    ((GetByName h name st).1 = Err (ErrUnknownProvider name)
     <-> ~ In name knownNames)
    /\ kind (ErrUnknownProvider name) = Unknown.
Proof.
  intros h name st Hst. split; [| reflexivity].
  rewrite (GetByName_result h name st Hst), GetByName_initial.
  unfold knownNames. simpl. split.
  - intros H Hin. revert H. unfold gostring_eqb.
    repeat (destruct Hin as [<- | Hin];
            [repeat (case_bool_decide; try done);
             try destruct (negb _); discriminate |]).
    contradiction.
  - intros Hno. name_cases.
    all: try (exfalso; apply Hno; tauto).
Qed.

Lemma GetByName_unknown_witness :
  (GetByName (envHost [("OPENAI_API_KEY", "test-key")]) (str "openai")
     initialStore).1
  = Err (ErrUnknownProvider (str "openai")).
Proof.
  refine (proj2 (proj1 (GetByName_unknown_iff
    (envHost [("OPENAI_API_KEY", "test-key")]) (str "openai") initialStore
    _)) _).
  - apply sameDescriptors_initial.
  - vm_compute. intuition discriminate.
Defined.

(** X2: a successful [GetByName] returns either an API-key provider under
    its exact name, with the value of its variable, which is not empty, or
    the CLI provider under one of its three names, with an empty credential,
    and then the CLI is available. *)
Theorem GetByName_success :
  forall h name st p key,
    sameDescriptors st ->
    (GetByName h name st).1 = Ok (p, key) ->
    (In p apiProviders /\ name = Name (initialStore p)
     /\ key = Getenv h (EnvVar (initialStore p)) /\ key <> [])
    \/ (p = GitHubCopilot /\ In name copilotNames /\ key = []
        /\ IsCopilotAvailable h = true).
Proof.
  intros h name st p key Hst.
  rewrite (GetByName_result h name st Hst), GetByName_initial.
  unfold gostring_eqb, apiProviders, copilotNames.
  repeat (case_bool_decide; simpl; try discriminate).
  all: try (intros [= <- <-]; subst; left; simpl; tauto).
  all: destruct (IsCopilotAvailable h); simpl; try discriminate.
  all: intros [= <- <-]; subst; right; simpl; tauto.
Qed.

Lemma GetByName_success_witness :
  In OpenAI apiProviders /\ str "OpenAI" = Name (initialStore OpenAI)
  /\ str "test-key"
     = Getenv (envHost [("OPENAI_API_KEY", "test-key")])
         (EnvVar (initialStore OpenAI))
  /\ str "test-key" <> [].
Proof.
  destruct (GetByName_success (envHost [("OPENAI_API_KEY", "test-key")])
              (str "OpenAI") initialStore OpenAI (str "test-key")
              sameDescriptors_initial) as [H | H].
  - vm_compute. reflexivity.
  - exact H.
  - exfalso. destruct H as (_ & _ & H & _). discriminate.
Defined.

(** X3: a lookup that fails writes nothing, and a lookup that succeeds
    writes one field: the [Configured] flag of the descriptor it returns.
    The other descriptors and the other fields stay as they were. *)
Theorem lookup_writes_one_flag :
  forall h name st,
    (forall e, (GetByName h name st).1 = Err e ->
               (GetByName h name st).2 = st)
    /\ (forall p key, (GetByName h name st).1 = Ok (p, key) ->
                      (GetByName h name st).2 = setConfigured st p)
    /\ ((Detect h st).1.1 = None -> (Detect h st).2 = st)
    /\ (forall p, (Detect h st).1.1 = Some p ->
                  (Detect h st).2 = setConfigured st p)
    /\ (forall p r, r <> p -> setConfigured st p r = st r)
    /\ (forall p r, descriptor (setConfigured st p r) = descriptor (st r)).
Proof.
  intros h name st. repeat apply conj.
  - intros e. unfold GetByName.
    destruct (getByNameLoop h name apiProviders st) as [[r st'] |] eqn:Hl.
    + simpl. intros ->. revert Hl. generalize apiProviders.
      induction l as [| q ps IH]; simpl; [discriminate |].
      destruct (gostring_eqb (Name (st q)) name); [| exact IH].
      destruct (gostring_eqb (Getenv h (EnvVar (st q))) []);
        now intros [= <-].
    + destruct (_ || _); [| reflexivity].
      destruct (negb (IsCopilotAvailable h)); [reflexivity | discriminate].
  - intros p key. unfold GetByName.
    destruct (getByNameLoop h name apiProviders st) as [[r st'] |] eqn:Hl.
    + simpl. intros ->. now apply getByNameLoop_marks in Hl.
    + destruct (_ || _); [| discriminate].
      destruct (negb (IsCopilotAvailable h)); [discriminate |].
      now intros [= <- _].
  - unfold Detect.
    destruct (detectLoop h apiProviders st) as [[[q k] st'] |];
      [discriminate |].
    now destruct (IsCopilotAvailable h).
  - intros p. unfold Detect.
    destruct (detectLoop h apiProviders st) as [[[q k] st'] |] eqn:Hl.
    + apply detectLoop_first in Hl as (_ & _ & _ & _ & _ & _ & ->).
      now intros [= ->].
    + destruct (IsCopilotAvailable h); [| discriminate].
      now intros [= <-].
  - intros p r Hr. unfold setConfigured. now rewrite bool_decide_eq_false_2.
  - intros p r. apply setConfigured_descriptor.
Qed.

Lemma lookup_writes_one_flag_witness :
  (GetByName (envHost []) (str "OpenAI") initialStore).2 = initialStore.
Proof.
  refine (proj1 (lookup_writes_one_flag (envHost []) (str "OpenAI")
                   initialStore) _ _).
  vm_compute. reflexivity.
Defined.

(** X4: the provider [Detect] selects is configured for [GetByName] too:
    asked for it by name on the same host, [GetByName] returns the same
    provider with the same credential. *)
Theorem Detect_then_GetByName :
  forall h st p key,
    sameDescriptors st ->
    (Detect h st).1 = (Some p, key) ->
    (GetByName h (Name (initialStore p)) st).1 = Ok (p, key).
Proof.
  intros h st p key Hst.
  rewrite (Detect_cascade h st Hst),
    (GetByName_result h _ st Hst), GetByName_initial.
  unfold detectCascade, gostring_eqb.
  destruct (decide (Getenv h (str "OPENAI_API_KEY") = [])) as [E1 | E1];
    [rewrite !(bool_decide_eq_true_2 _ E1)
    | rewrite !(bool_decide_eq_false_2 _ E1)];
  destruct (decide (Getenv h (str "ANTHROPIC_API_KEY") = [])) as [E2 | E2];
    [rewrite !(bool_decide_eq_true_2 _ E2)
    | rewrite !(bool_decide_eq_false_2 _ E2) | |];
  destruct (decide (Getenv h (str "GEMINI_API_KEY") = [])) as [E3 | E3];
    try rewrite !(bool_decide_eq_true_2 _ E3);
    try rewrite !(bool_decide_eq_false_2 _ E3);
  destruct (decide (Getenv h (str "DEEPSEEK_API_KEY") = [])) as [E4 | E4];
    try rewrite !(bool_decide_eq_true_2 _ E4);
    try rewrite !(bool_decide_eq_false_2 _ E4);
  destruct (IsCopilotAvailable h); simpl; try discriminate;
  intros [= <- <-]; simpl;
  repeat (case_bool_decide; try done; try discriminate).
  all: reflexivity.
Qed.

Lemma Detect_then_GetByName_witness :
  (GetByName (envHost [("ANTHROPIC_API_KEY", "test-anthropic-key")])
     (Name (initialStore Anthropic)) initialStore).1
  = Ok (Anthropic, str "test-anthropic-key").
Proof.
  refine (Detect_then_GetByName
    (envHost [("ANTHROPIC_API_KEY", "test-anthropic-key")]) initialStore
    Anthropic (str "test-anthropic-key") sameDescriptors_initial _).
  vm_compute. reflexivity.
Defined.

(** ** The registry: the listing *)

Lemma ListAll_initial h :
  ListAll h initialStore
  = [mkProviderInfo (str "OpenAI") (str "gpt-4o") (str "OPENAI_API_KEY")
       (negb (gostring_eqb (Getenv h (str "OPENAI_API_KEY")) []));
     mkProviderInfo (str "Anthropic") (str "claude-sonnet-4-20250514")
       (str "ANTHROPIC_API_KEY")
       (negb (gostring_eqb (Getenv h (str "ANTHROPIC_API_KEY")) []));
     mkProviderInfo (str "Gemini") (str "gemini-2.0-flash")
       (str "GEMINI_API_KEY")
       (negb (gostring_eqb (Getenv h (str "GEMINI_API_KEY")) []));
     mkProviderInfo (str "DeepSeek") (str "deepseek-chat")
       (str "DEEPSEEK_API_KEY")
       (negb (gostring_eqb (Getenv h (str "DEEPSEEK_API_KEY")) []));
     mkProviderInfo (str "GitHub Copilot") (str "gpt-4")
       (str "gh copilot (CLI)") (IsCopilotAvailable h)].
Proof. reflexivity. Qed.

(** X5: a provider is listed as configured exactly when [GetByName]
    succeeds for its listed name on the same host. *)
Theorem ListAll_configured_iff_GetByName :
  forall h st info,
    sameDescriptors st ->
    In info (ListAll h st) ->
    (infoConfigured info = true
     <-> exists p key, (GetByName h (infoName info) st).1 = Ok (p, key)).
Proof.
  intros h st info Hst.
  rewrite (ListAll_result h st Hst), ListAll_initial,
    (GetByName_result h _ st Hst), GetByName_initial.
  unfold gostring_eqb. simpl.
  intros Hin.
  repeat (destruct Hin as [<- | Hin]); try contradiction; simpl;
    repeat (case_bool_decide; try done; try discriminate); simpl;
    try destruct (IsCopilotAvailable h); simpl.
  all: split;
    [intros Hc; try discriminate; eauto
    | intros (p & key & Hk); try discriminate; reflexivity].
Qed.

Lemma ListAll_configured_iff_GetByName_witness :
  exists p key,
    (GetByName (envHost [("GEMINI_API_KEY", "g-key")]) (str "Gemini")
       initialStore).1 = Ok (p, key).
Proof.
  refine (proj1 (ListAll_configured_iff_GetByName
    (envHost [("GEMINI_API_KEY", "g-key")]) initialStore
    (mkProviderInfo (str "Gemini") (str "gemini-2.0-flash")
       (str "GEMINI_API_KEY") true)
    sameDescriptors_initial _) _).
  - vm_compute. tauto.
  - reflexivity.
Defined.

(** X6: [Detect] finds no provider exactly when the listing shows none
    configured. *)
Theorem Detect_none_iff_nothing_configured :
  forall h st,
    sameDescriptors st ->
    ((Detect h st).1.1 = None
     <-> Forall (fun info => infoConfigured info = false) (ListAll h st)).
Proof.
  intros h st Hst.
  rewrite (Detect_cascade h st Hst), (ListAll_result h st Hst),
    ListAll_initial.
  unfold detectCascade. rewrite !Forall_cons, Forall_nil. simpl.
  repeat match goal with
         | |- context [negb (gostring_eqb ?k [])] =>
             destruct (negb (gostring_eqb k [])); simpl;
             [split; [discriminate | intros; intuition discriminate] |]
         end.
  destruct (IsCopilotAvailable h); simpl; split;
    try discriminate; intuition discriminate.
Qed.

Lemma Detect_none_iff_nothing_configured_witness :
  (Detect (envHost []) initialStore).1.1 = None.
Proof.
  refine (proj2 (Detect_none_iff_nothing_configured (envHost [])
                   initialStore sameDescriptors_initial) _).
  vm_compute. repeat constructor.
Defined.

(** X7: on every host the listing holds one record for each of the five
    providers, in the order of the registry with the CLI provider last,
    with its default model and the source of its credential; no name occurs
    twice. *)
Theorem ListAll_records :
  forall h st,
    sameDescriptors st ->
    map (fun info => (infoName info, infoDefaultModel info, infoEnvVar info))
      (ListAll h st)
    = [(str "OpenAI", str "gpt-4o", str "OPENAI_API_KEY");
       (str "Anthropic", str "claude-sonnet-4-20250514",
        str "ANTHROPIC_API_KEY");
       (str "Gemini", str "gemini-2.0-flash", str "GEMINI_API_KEY");
       (str "DeepSeek", str "deepseek-chat", str "DEEPSEEK_API_KEY");
       (str "GitHub Copilot", str "gpt-4", str "gh copilot (CLI)")]
    /\ NoDup (map infoName (ListAll h st))
    /\ length (ListAll h st) = S (length apiProviders).
Proof.
  intros h st Hst. rewrite (ListAll_result h st Hst), ListAll_initial.
  repeat apply conj; try reflexivity.
  simpl. apply (bool_decide_unpack _). vm_compute. exact I.
Qed.

Lemma ListAll_records_witness :
  length (ListAll (copilotHost []) initialStore) = S (length apiProviders).
Proof.
  refine (proj2 (proj2 (ListAll_records (copilotHost []) initialStore _))).
  apply sameDescriptors_initial.
Defined.

(** ** The timeout *)

(** X8: a timeout that is zero or negative can only come from the
    variable [HOWTO_TIMEOUT]: with a flag the result is the flag, which is
    positive, and the default is positive; a duration parsed from the
    variable is returned as it is, whatever its sign. *)
Theorem GetTimeout_not_positive :
  forall (ParseDuration : gostring -> option Z) h flagTimeout,
    (GetTimeout ParseDuration h flagTimeout <= 0)%Z ->
    (flagTimeout <= 0)%Z
    /\ Getenv h TimeoutEnvVar <> []
    /\ ParseDuration (Getenv h TimeoutEnvVar)
       = Some (GetTimeout ParseDuration h flagTimeout).
Proof.
  intros PD h flag. unfold GetTimeout, gostring_eqb.
  destruct (Z.ltb_spec 0 flag); [lia |].
  case_bool_decide as He; simpl; [unfold DefaultTimeout, Second; lia |].
  destruct (PD (Getenv h TimeoutEnvVar)) as [d |];
    [auto | unfold DefaultTimeout, Second; lia].
Qed.

Lemma GetTimeout_not_positive_witness :
  (0 <= 0)%Z
  /\ Getenv (envHost [("HOWTO_TIMEOUT", "0")]) TimeoutEnvVar <> []
  /\ zeroParseDuration (Getenv (envHost [("HOWTO_TIMEOUT", "0")])
                          TimeoutEnvVar)
     = Some (GetTimeout zeroParseDuration
               (envHost [("HOWTO_TIMEOUT", "0")]) 0).
Proof.
  apply (GetTimeout_not_positive zeroParseDuration
           (envHost [("HOWTO_TIMEOUT", "0")]) 0).
  vm_compute. discriminate.
Defined.

(** ** The HTTP providers: success, failure to send, the request *)

(** What the two queries do with a response, whatever the status code is:
    helper equations for the properties below. *)
Lemma chat_response net p apiKey model promptText req resp :
  newChatRequest net p apiKey model promptText = Ok req ->
  Do net req = DoDone resp ->
  queryOpenAICompatible net p apiKey model promptText
  = match ReadAll resp with
    | Failed err => Err (ErrRead err)
    | Done body =>
        match UnmarshalChat net body with
        | Failed err => Err (ErrParse err)
        | Done r =>
            match chatError r with
            | Some e => Err (ErrAPI (errMessage e))
            | None =>
                if negb (StatusCode resp =? StatusOK)%Z
                then Err (ErrStatus (StatusCode resp) body)
                else match Choices r with
                     | c :: _ => Ok (Content (choiceMessage c))
                     | [] => Err (ErrNoResponse (Name p))
                     end
            end
        end
    end.
Proof. intros Hreq Hdo. unfold queryOpenAICompatible. now rewrite Hreq, Hdo. Qed.

Lemma anthropic_response net p apiKey model promptText req resp :
  newAnthropicRequest net p apiKey model promptText = Ok req ->
  Do net req = DoDone resp ->
  queryAnthropic net p apiKey model promptText
  = match ReadAll resp with
    | Failed err => Err (ErrRead err)
    | Done body =>
        match UnmarshalAnthropic net body with
        | Failed err => Err (ErrParseBody err body)
        | Done r =>
            match respError r with
            | Some e => Err (ErrAPI (aErrMessage e))
            | None =>
                if negb (StatusCode resp =? StatusOK)%Z
                then Err (ErrStatus (StatusCode resp) body)
                else match respContent r with
                     | b :: _ =>
                         if gostring_eqb (blockType b) (str "text")
                         then Ok (blockText b)
                         else Err (ErrNoResponse (str "Anthropic"))
                     | [] => Err (ErrNoResponse (str "Anthropic"))
                     end
            end
        end
    end.
Proof. intros Hreq Hdo. unfold queryAnthropic. now rewrite Hreq, Hdo. Qed.

(** X9: an HTTP query returns a text only from a response with status 200
    whose body was read and decoded and holds no error payload: the content
    of the first choice for an OpenAI-compatible provider, the text of the
    first content block, which must be of type text, for Anthropic.  No
    other exchange makes the query succeed. *)
Theorem http_success_iff :
  forall net p apiKey model promptText text,
    (queryOpenAICompatible net p apiKey model promptText = Ok text
     <-> exists req resp body r c rest,
           newChatRequest net p apiKey model promptText = Ok req
           /\ Do net req = DoDone resp
           /\ ReadAll resp = Done body
           /\ UnmarshalChat net body = Done r
           /\ chatError r = None
           /\ StatusCode resp = StatusOK
           /\ Choices r = c :: rest
           /\ text = Content (choiceMessage c))
    /\ (queryAnthropic net p apiKey model promptText = Ok text
        <-> exists req resp body r b rest,
              newAnthropicRequest net p apiKey model promptText = Ok req
              /\ Do net req = DoDone resp
              /\ ReadAll resp = Done body
              /\ UnmarshalAnthropic net body = Done r
              /\ respError r = None
              /\ StatusCode resp = StatusOK
              /\ respContent r = b :: rest
              /\ blockType b = str "text"
              /\ text = blockText b).
Proof.
  intros net p apiKey model promptText text. split; split.
  - unfold queryOpenAICompatible.
    destruct (newChatRequest net p apiKey model promptText) as [req | e];
      [| discriminate].
    destruct (Do net req) as [resp | ctx cause] eqn:Hdo; [| discriminate].
    destruct (ReadAll resp) as [body | cause] eqn:Hb; [| discriminate].
    destruct (UnmarshalChat net body) as [r | cause] eqn:Hr;
      [| discriminate].
    destruct (chatError r) eqn:He; [discriminate |].
    destruct (Z.eqb_spec (StatusCode resp) StatusOK) as [Hs | Hs];
      [| discriminate].
    destruct (Choices r) as [| c rest] eqn:Hc; [discriminate |].
    simpl. intros [= <-].
    exists req, resp, body, r, c, rest. repeat split; auto.
  - intros (req & resp & body & r & c & rest
            & Hreq & Hdo & Hb & Hr & He & Hs & Hc & ->).
    rewrite (chat_response _ _ _ _ _ _ _ Hreq Hdo), Hb, Hr, He, Hs, Hc.
    reflexivity.
  - unfold queryAnthropic.
    destruct (newAnthropicRequest net p apiKey model promptText)
      as [req | e]; [| discriminate].
    destruct (Do net req) as [resp | ctx cause] eqn:Hdo; [| discriminate].
    destruct (ReadAll resp) as [body | cause] eqn:Hb; [| discriminate].
    destruct (UnmarshalAnthropic net body) as [r | cause] eqn:Hr;
      [| discriminate].
    destruct (respError r) eqn:He; [discriminate |].
    destruct (Z.eqb_spec (StatusCode resp) StatusOK) as [Hs | Hs];
      [| discriminate].
    destruct (respContent r) as [| b rest] eqn:Hc; [discriminate |].
    simpl. unfold gostring_eqb. case_bool_decide as Ht; [| discriminate].
    intros [= <-].
    exists req, resp, body, r, b, rest. repeat split; auto.
  - intros (req & resp & body & r & b & rest
            & Hreq & Hdo & Hb & Hr & He & Hs & Hc & Ht & ->).
    rewrite (anthropic_response _ _ _ _ _ _ _ Hreq Hdo), Hb, Hr, He, Hs, Hc.
    simpl. unfold gostring_eqb. now rewrite bool_decide_eq_true_2.
Qed.

(** X10: a query of an OpenAI-compatible provider fails with the
    empty-response error, which names the provider, exactly when the
    exchange went through with status 200, the body decoded without error
    payload, and the list of choices is empty. *)
Theorem chat_empty_response_iff :
  forall net p apiKey model promptText name,
    (queryOpenAICompatible net p apiKey model promptText
     = Err (ErrNoResponse name)
     <-> name = Name p
         /\ exists req resp body r,
              newChatRequest net p apiKey model promptText = Ok req
              /\ Do net req = DoDone resp
              /\ ReadAll resp = Done body
              /\ UnmarshalChat net body = Done r
              /\ chatError r = None
              /\ StatusCode resp = StatusOK
              /\ Choices r = [])
    /\ kind (ErrNoResponse name) = EmptyResponse.
Proof.
  intros net p apiKey model promptText name. split; [split |reflexivity].
  - unfold queryOpenAICompatible, newChatRequest, NewRequestWithContext.
    destruct (MarshalChat net _) as [jsonData | cause] eqn:Hm;
      [| discriminate].
    destruct (requestError net _ _) as [cause |] eqn:Hq; [discriminate |].
    match goal with
    | |- context [Do net ?r] => set (req := r)
    end.
    destruct (Do net req) as [resp | ctx cause] eqn:Hdo;
      [| destruct ctx; discriminate].
    destruct (ReadAll resp) as [body | cause] eqn:Hb; [| discriminate].
    destruct (UnmarshalChat net body) as [r | cause] eqn:Hr;
      [| discriminate].
    destruct (chatError r) eqn:He; [discriminate |].
    destruct (Z.eqb_spec (StatusCode resp) StatusOK) as [Hs | Hs];
      [| discriminate].
    destruct (Choices r) as [| c rest] eqn:Hc; [| discriminate].
    simpl. intros [= <-]. split; [reflexivity |].
    exists req, resp, body, r. repeat split; auto.
  - intros (-> & req & resp & body & r & Hreq & Hdo & Hb & Hr & He & Hs & Hc).
    rewrite (chat_response _ _ _ _ _ _ _ Hreq Hdo), Hb, Hr, He, Hs, Hc.
    reflexivity.
Qed.

(** X11: when the request cannot be sent, both HTTP queries report a
    timeout exactly when the deadline of the context has passed, and a
    failure of the transport that keeps the cause in every other case, a
    canceled context included. *)
Theorem http_send_failure :
  forall net p apiKey model promptText req ctx cause,
    Do net req = DoFailed ctx cause ->
    (newChatRequest net p apiKey model promptText = Ok req ->
     queryOpenAICompatible net p apiKey model promptText
     = Err (sendError ctx cause))
    /\ (newAnthropicRequest net p apiKey model promptText = Ok req ->
        queryAnthropic net p apiKey model promptText
        = Err (sendError ctx cause))
    /\ (ctx = DeadlineExceeded ->
        sendError ctx cause = ErrTimedOut /\ kind ErrTimedOut = Timeout)
    /\ (ctx <> DeadlineExceeded ->
        sendError ctx cause = ErrSend cause
        /\ kind (ErrSend cause) = TransportError).
Proof.
  intros net p apiKey model promptText req ctx cause Hdo.
  repeat apply conj.
  - intros Hreq. unfold queryOpenAICompatible. now rewrite Hreq, Hdo.
  - intros Hreq. unfold queryAnthropic. now rewrite Hreq, Hdo.
  - intros ->. split; reflexivity.
  - intros Hctx. destruct ctx; [| contradiction |]; split; reflexivity.
Qed.

Lemma http_send_failure_witness :
  queryOpenAICompatible
    (failingNet Canceled (str "context canceled"))
    (initialStore OpenAI) (str "test-key") (str "gpt-4o")
    (str "list files")
  = Err (ErrSend (str "context canceled")).
Proof.
  refine (eq_trans
            (proj1 (http_send_failure
                      (failingNet Canceled (str "context canceled"))
                      (initialStore OpenAI) (str "test-key") (str "gpt-4o")
                      (str "list files") _ Canceled
                      (str "context canceled") eq_refl) eq_refl) _).
  reflexivity.
Defined.

(** X12: the request of an OpenAI-compatible query is a POST to the
    endpoint of the provider whose body is the marshalled chat request (the
    model, one user message with the prompt, 1000 tokens at most); it
    carries the credential in the [Authorization] header after the word
    Bearer and has no other header than that one and the content type.
    The request of the Anthropic query carries the credential in the
    [X-Api-Key] header, with the version header and the content type, and
    has no [Authorization] header. *)
Theorem http_request_shape :
  forall net p apiKey model promptText req,
    (newChatRequest net p apiKey model promptText = Ok req ->
     Method req = str "POST" /\ URL req = Endpoint p
     /\ MarshalChat net
          (mkChatRequest model [mkMessage (str "user") promptText] 1000)
        = Done (Body req)
     /\ Header req !! str "Authorization" = Some (str "Bearer " ++ apiKey)
     /\ Header req !! str "Content-Type" = Some (str "application/json")
     /\ size (Header req) = 2)
    /\ (newAnthropicRequest net p apiKey model promptText = Ok req ->
        Method req = str "POST" /\ URL req = Endpoint p
        /\ MarshalAnthropic net
             (mkAnthropicRequest model 1000
                [mkAnthropicMessage (str "user") promptText])
           = Done (Body req)
        /\ Header req !! str "X-Api-Key" = Some apiKey
        /\ Header req !! str "Anthropic-Version" = Some (str "2023-06-01")
        /\ Header req !! str "Content-Type" = Some (str "application/json")
        /\ Header req !! str "Authorization" = None
        /\ size (Header req) = 3).
Proof.
  intros net p apiKey model promptText req. split.
  - unfold newChatRequest, NewRequestWithContext.
    destruct (MarshalChat net _) as [jsonData | cause]; [| discriminate].
    destruct (requestError net _ _); [discriminate |].
    intros [= <-]. unfold HeaderSet. simpl.
    repeat apply conj; reflexivity.
  - unfold newAnthropicRequest, NewRequestWithContext.
    destruct (MarshalAnthropic net _) as [jsonData | cause];
      [| discriminate].
    destruct (requestError net _ _); [discriminate |].
    intros [= <-]. unfold HeaderSet. simpl.
    repeat apply conj; reflexivity.
Qed.

Lemma http_request_shape_witness :
  Header
    (HeaderSet
       (HeaderSet (mkRequest (str "POST") (Endpoint (initialStore OpenAI))
                     ∅ (str "{}"))
          (str "Content-Type") (str "application/json"))
       (str "Authorization") (str "Bearer " ++ str "sk-test"))
    !! str "Authorization"
  = Some (str "Bearer " ++ str "sk-test").
Proof.
  refine (proj1 (proj2 (proj2 (proj2 (proj1 (http_request_shape
    invalidKeyNet (initialStore OpenAI) (str "sk-test") (str "gpt-4o")
    (str "list files") _) _))))).
  reflexivity.
Defined.

(** ** The dispatch of a query *)

(** X13: of the five providers of the registry, [Query] sends GitHub
    Copilot to the subprocess, Anthropic to the Anthropic query, and
    OpenAI, Gemini and DeepSeek to the OpenAI-compatible query. *)
Theorem Query_of_registry :
  forall net h st r apiKey model promptText,
    sameDescriptors st ->
    Query net h (st r) apiKey model promptText
    = match r with
      | GitHubCopilot => queryCopilot h (st r) apiKey model promptText
      | Anthropic => queryAnthropic net (st r) apiKey model promptText
      | _ => queryOpenAICompatible net (st r) apiKey model promptText
      end.
Proof.
  intros net h st r apiKey model promptText Hst. unfold Query.
  destruct (sameDescriptors_fields st r Hst) as (Hn & _ & _).
  pose proof (Hst r) as Hd. unfold descriptor in Hd.
  assert (Ha : authType (st r) = authType (initialStore r))
    by now inversion Hd.
  rewrite Ha, Hn. now destruct r.
Qed.

Lemma Query_of_registry_witness :
  Query invalidKeyNet (envHost []) (initialStore Anthropic) (str "k")
    (str "claude-sonnet-4-20250514") (str "list files")
  = queryAnthropic invalidKeyNet (initialStore Anthropic) (str "k")
      (str "claude-sonnet-4-20250514") (str "list files").
Proof.
  exact (Query_of_registry invalidKeyNet (envHost []) initialStore Anthropic
           (str "k") (str "claude-sonnet-4-20250514") (str "list files")
           sameDescriptors_initial).
Defined.

(** X14: the query of a CLI provider never uses the network and the JSON
    codec, and the query of any other provider never uses the host; the
    query does not read the [Configured] flag, and it treats the
    authentication types [AuthBearer] and [AuthAPIKey] alike: it is the
    name Anthropic that selects the Anthropic query. *)
Theorem Query_uses :
  forall net h p apiKey model promptText,
    (authType p = AuthCLI ->
     forall net',
       Query net h p apiKey model promptText
       = Query net' h p apiKey model promptText)
    /\ (authType p <> AuthCLI ->
        forall h',
          Query net h p apiKey model promptText
          = Query net h' p apiKey model promptText)
    /\ (forall flag,
           Query net h
             (mkProvider (Name p) (Endpoint p) (DefaultModel p) (EnvVar p)
                (authType p) flag) apiKey model promptText
           = Query net h p apiKey model promptText)
    /\ Query net h
         (mkProvider (Name p) (Endpoint p) (DefaultModel p) (EnvVar p)
            AuthBearer (Configured p)) apiKey model promptText
       = Query net h
           (mkProvider (Name p) (Endpoint p) (DefaultModel p) (EnvVar p)
              AuthAPIKey (Configured p)) apiKey model promptText.
Proof.
  intros net h p apiKey model promptText. repeat apply conj.
  - intros Hp net'. unfold Query. now rewrite !bool_decide_eq_true_2.
  - intros Hp h'. unfold Query. now rewrite !bool_decide_eq_false_2.
  - intros flag. unfold Query. simpl. now destruct p.
  - reflexivity.
Qed.

(** ** GitHub Copilot: failures *)

Lemma handleCopilotError_kind ctx err stderrStr :
  In (kind (handleCopilotError ctx err stderrStr))
    [Timeout; SubprocessFailure; ToolNotAvailable; NotAuthenticated;
     SubscriptionRequired].
Proof.
  unfold handleCopilotError.
  destruct ctx; [| cbn [kind In]; auto 10 | cbn [kind In]; auto 10].
  destruct (Contains stderrStr (str "not installed")
            || Contains stderrStr (str "extension"));
    [cbn [kind In]; auto 10 |].
  destruct (Contains stderrStr (str "auth")
            || Contains stderrStr (str "login"));
    [cbn [kind In]; auto 10 |].
  destruct (Contains stderrStr (str "subscription"));
    cbn [kind In]; auto 10.
Qed.

(** X15: a run of [gh] that fails never yields a command: whatever the
    subprocess printed on its standard output, the query fails, with a
    timeout when the deadline has passed whatever the standard error says,
    and otherwise with one of the classified failures of the CLI. *)
Theorem queryCopilot_failed_run :
  forall h p apiKey model promptText ghPath err,
    LookPath h (str "gh") = Some ghPath ->
    runErr (Run h ghPath (copilotArgs model promptText)) = Some err ->
    exists e,
      queryCopilot h p apiKey model promptText = Err e
      /\ In (kind e)
           [Timeout; SubprocessFailure; ToolNotAvailable; NotAuthenticated;
            SubscriptionRequired]
      /\ (runCtx (Run h ghPath (copilotArgs model promptText))
          = DeadlineExceeded -> e = ErrTimedOut).
Proof.
  intros h p apiKey model promptText ghPath err Hgh Hrun.
  unfold queryCopilot. rewrite Hgh. simpl. rewrite Hrun.
  eexists. split; [reflexivity |]. split.
  - apply handleCopilotError_kind.
  - now intros ->.
Qed.

Lemma queryCopilot_failed_run_witness :
  exists e,
    queryCopilot (failingGhHost (str "ls -la") [] DeadlineExceeded)
      (initialStore GitHubCopilot) [] (str "gpt-4") (str "list files")
    = Err e
    /\ In (kind e)
         [Timeout; SubprocessFailure; ToolNotAvailable; NotAuthenticated;
          SubscriptionRequired]
    /\ (runCtx (Run (failingGhHost (str "ls -la") [] DeadlineExceeded)
                  (str "/usr/bin/gh")
                  (copilotArgs (str "gpt-4") (str "list files")))
        = DeadlineExceeded -> e = ErrTimedOut).
Proof.
  apply (queryCopilot_failed_run
           (failingGhHost (str "ls -la") [] DeadlineExceeded)
           (initialStore GitHubCopilot) [] (str "gpt-4") (str "list files")
           (str "/usr/bin/gh") (str "exit status 1")); reflexivity.
Defined.

(** X16: the query fails with the tool-not-found error exactly when [gh]
    is not on the search path; in particular it never does on a host where
    [IsCopilotAvailable] holds, and where [gh] is missing
    [IsCopilotAvailable] is false. *)
Theorem queryCopilot_tool_not_found_iff :
  forall h p apiKey model promptText,
    (queryCopilot h p apiKey model promptText = Err ErrGhNotFound
     <-> LookPath h (str "gh") = None)
    /\ (IsCopilotAvailable h = true ->
        queryCopilot h p apiKey model promptText <> Err ErrGhNotFound)
    /\ (LookPath h (str "gh") = None -> IsCopilotAvailable h = false)
    /\ kind ErrGhNotFound = ToolNotFound.
Proof.
  intros h p apiKey model promptText.
  assert (Hiff : queryCopilot h p apiKey model promptText = Err ErrGhNotFound
                 <-> LookPath h (str "gh") = None).
  { unfold queryCopilot.
    destruct (LookPath h (str "gh")) as [ghPath |];
      [| split; intros; reflexivity].
    split; [| discriminate]. simpl.
    destruct (runErr _) as [err |].
    - intros [= H]. exfalso. revert H. unfold handleCopilotError.
      destruct (runCtx _); try discriminate.
      destruct (Contains _ (str "not installed")
                || Contains _ (str "extension")); [discriminate |].
      destruct (Contains _ (str "auth") || Contains _ (str "login"));
        [discriminate |].
      destruct (Contains _ (str "subscription")); discriminate.
    - destruct (gostring_eqb _ []); discriminate. }
  repeat apply conj; try reflexivity; try exact (proj1 Hiff);
    try exact (proj2 Hiff).
  - intros Hav Hq. apply Hiff in Hq. unfold IsCopilotAvailable in Hav.
    now rewrite Hq in Hav.
  - intros Hno. unfold IsCopilotAvailable. now rewrite Hno.
Qed.

Lemma queryCopilot_tool_not_found_witness :
  queryCopilot (envHost []) (initialStore GitHubCopilot) [] (str "gpt-4")
    (str "list files")
  = Err ErrGhNotFound.
Proof.
  refine (proj2 (proj1 (queryCopilot_tool_not_found_iff (envHost [])
    (initialStore GitHubCopilot) [] (str "gpt-4") (str "list files"))) _).
  reflexivity.
Defined.

(** ** The sanitizers: what they keep *)

Lemma Join_cons e l sep :
  l <> [] -> Join (e :: l) sep = e ++ sep ++ Join l sep.
Proof. now destruct l. Qed.

Lemma Join_snoc l e sep :
  l <> [] -> Join (l ++ [e]) sep = Join l sep ++ sep ++ e.
Proof.
  induction l as [| a l IH]; [contradiction |]. intros _.
  destruct l as [| b l]; [reflexivity |].
  change ((a :: b :: l) ++ [e]) with (a :: (b :: l) ++ [e]).
  rewrite (Join_cons a ((b :: l) ++ [e]))
    by (intros H; simpl in H; discriminate H).
  rewrite IH by (intros H; discriminate H).
  rewrite (Join_cons a (b :: l)) by (intros H; discriminate H).
  now rewrite <- !app_assoc.
Qed.

Lemma splitGo_nonempty sep k cur s : splitGo sep k cur s <> [].
Proof.
  revert k cur. induction s as [| c s IH]; intros k cur; cbn [splitGo];
    [discriminate |].
  destruct k as [| k]; [| apply IH].
  destruct (HasPrefix (c :: s) sep); [discriminate | apply IH].
Qed.

(** Splitting at the line breaks and joining with line breaks gives the
    text back. *)
Lemma Join_splitGo_LF cur s : Join (splitGo LF 0 cur s) LF = rev cur ++ s.
Proof.
  revert cur. induction s as [| c s IH]; intros cur; cbn [splitGo].
  - simpl. now rewrite app_nil_r.
  - change (HasPrefix (c :: s) LF) with (Ascii.eqb c "010" && true).
    destruct (Ascii.eqb_spec c "010"%char) as [-> | Hc]; cbn [andb].
    + change (length LF - 1) with 0.
      rewrite Join_cons by apply splitGo_nonempty.
      rewrite IH. reflexivity.
    + rewrite IH. simpl. now rewrite <- app_assoc.
Qed.

Lemma Join_Split_LF s : Join (Split s LF) LF = s.
Proof. unfold Split. now rewrite Join_splitGo_LF. Qed.

(** A list of more than two elements has a first, a last and a non-empty
    middle. *)
Lemma three_parts {A} (l : list A) :
  2 < length l ->
  exists first mid last, l = first :: mid ++ [last] /\ mid <> [].
Proof.
  intros Hlen. destruct l as [| first l]; [simpl in Hlen; lia |].
  destruct (rev l) as [| last m] eqn:Hrev.
  - apply (f_equal (@rev A)) in Hrev. rewrite rev_involutive in Hrev.
    subst. simpl in Hlen. lia.
  - apply (f_equal (@rev A)) in Hrev. rewrite rev_involutive in Hrev.
    simpl in Hrev. subst l. exists first, (rev m), last. split; [easy |].
    intros Hm. rewrite Hm in Hlen. simpl in Hlen. lia.
Qed.

(** The stage that removes the code block cuts a piece out of the text. *)
Lemma removeCodeBlock_piece cmd :
  exists p q, cmd = p ++ removeCodeBlock cmd ++ q.
Proof.
  destruct (HasPrefix cmd fence) eqn:Hp.
  - destruct (Nat.le_gt_cases (length (Split cmd LF)) 2) as [Hlen | Hlen].
    + rewrite removeCodeBlock_unchanged by tauto.
      exists [], []. now rewrite app_nil_r.
    + destruct (three_parts _ Hlen) as (first & mid & last & Hs & Hmid).
      rewrite (removeCodeBlock_inner cmd first mid last Hp Hs Hmid).
      exists (first ++ LF), (LF ++ last).
      rewrite <- (Join_Split_LF cmd) at 1. rewrite Hs.
      rewrite (Join_cons first (mid ++ [last]))
        by (intros H; destruct mid; simpl in H; discriminate H).
      rewrite Join_snoc by exact Hmid. now rewrite <- !app_assoc.
  - rewrite removeCodeBlock_unchanged by tauto.
    exists [], []. now rewrite app_nil_r.
Qed.

Lemma TrimPrefix_piece s prefix : exists p, s = p ++ TrimPrefix s prefix.
Proof.
  unfold TrimPrefix. destruct (HasPrefix s prefix); [| now exists []].
  exists (take (length prefix) s). now rewrite take_drop.
Qed.

Lemma removeLanguage_piece cmd lang :
  exists p, cmd = p ++ removeLanguage cmd lang.
Proof.
  unfold removeLanguage.
  destruct (HasPrefix (ToLower cmd) (lang ++ LF)); [| now exists []].
  destruct (TrimPrefix_piece cmd (lang ++ LF)) as [p Hp].
  destruct (TrimPrefix_piece (TrimPrefix cmd (lang ++ LF))
              (ToUpper lang ++ LF)) as [p' Hp'].
  exists (p ++ p'). now rewrite <- app_assoc, <- Hp', <- Hp.
Qed.

Lemma removeLanguages_piece langs cmd :
  exists p, cmd = p ++ fold_left removeLanguage langs cmd.
Proof.
  revert cmd. induction langs as [| lang langs IH]; intros cmd; simpl;
    [now exists [] |].
  destruct (removeLanguage_piece cmd lang) as [p Hp].
  destruct (IH (removeLanguage cmd lang)) as [p' Hp'].
  exists (p ++ p'). now rewrite <- app_assoc, <- Hp', <- Hp.
Qed.

Lemma pieceOf_trans a b c : pieceOf a b -> pieceOf b c -> pieceOf a c.
Proof.
  intros (p & q & ->) (p' & q' & ->). exists (p' ++ p), (q ++ q').
  now rewrite <- !app_assoc.
Qed.

Lemma pieceOf_In a s c : pieceOf a s -> In c a -> In c s.
Proof. intros (p & q & ->) H. rewrite !in_app_iff. tauto. Qed.

Lemma pieceOf_length a s : pieceOf a s -> length a <= length s.
Proof. intros (p & q & ->). rewrite !length_app. lia. Qed.

(** Up to the replacement of the line breaks, [SanitizeCommand] only cuts
    at the two ends of what is left. *)
Lemma beforeReplace_piece x : pieceOf (beforeReplace x) x.
Proof.
  unfold beforeReplace.
  eapply pieceOf_trans; [| apply TrimSpace_piece].
  eapply pieceOf_trans; [| apply removeCodeBlock_piece].
  eapply pieceOf_trans; [| apply Trim_piece].
  destruct (removeLanguages_piece languages
              (Trim (removeCodeBlock (TrimSpace x)) (str "`"))) as [p Hp].
  exists p, []. rewrite app_nil_r. exact Hp.
Qed.

Lemma replace_LF_In s c :
  In c (ReplaceAll s LF SP) ->
  In c s \/ (c = " "%char /\ In "010"%char s).
Proof.
  unfold ReplaceAll. induction s as [| d s IH]; cbn [replaceGo]; [tauto |].
  change (HasPrefix (d :: s) LF) with (Ascii.eqb d "010" && true).
  change (length LF - 1) with 0.
  destruct (Ascii.eqb_spec d "010"%char) as [-> | Hd]; cbn [andb].
  - intros [H | H]%in_app_iff.
    + right. destruct H as [<- | []]. split; [reflexivity | now left].
    + apply IH in H. simpl. tauto.
  - intros [<- | H]; [now left; left |]. apply IH in H. simpl. tauto.
Qed.

Lemma replace_LF_length s : length (ReplaceAll s LF SP) = length s.
Proof.
  unfold ReplaceAll. induction s as [| d s IH]; cbn [replaceGo];
    [reflexivity |].
  change (HasPrefix (d :: s) LF) with (Ascii.eqb d "010" && true).
  change (length LF - 1) with 0.
  destruct (Ascii.eqb d "010"); cbn [andb]; simpl; now rewrite IH.
Qed.

Lemma replaceGo_spaces_In k s c :
  In c (replaceGo (SP ++ SP) SP k s) -> In c s.
Proof.
  revert k. induction s as [| d s IH]; intros k; cbn [replaceGo]; [tauto |].
  destruct k as [| k].
  - destruct (HasPrefix (d :: s) (SP ++ SP)) eqn:Hp.
    + apply HasPrefix_app in Hp as [r Hr]. injection Hr as -> ->.
      intros [H | H]%in_app_iff.
      * destruct H as [<- | []]. now left.
      * apply IH in H. now right.
    + intros [<- | H]; [now left |]. apply IH in H. now right.
  - intros H. apply IH in H. now right.
Qed.

Lemma collapseSpaces_keeps n s c : In c (collapseSpaces n s) -> In c s.
Proof.
  revert s. induction n as [| n IH]; intros s; cbn [collapseSpaces];
    [tauto |].
  destruct (Contains s (SP ++ SP)); [| tauto].
  intros H. apply IH in H. now apply replaceGo_spaces_In in H.
Qed.

Lemma collapseSpaces_length n s : length (collapseSpaces n s) <= length s.
Proof.
  revert s. induction n as [| n IH]; intros s; cbn [collapseSpaces];
    [lia |].
  destruct (Contains s (SP ++ SP)); [| lia].
  etransitivity; [apply IH |]. apply replaceGo_spaces_length.
Qed.

(** X17: a command that is already clean passes through the sanitizer
    unchanged: a text without white space at its ends, without line break,
    without two spaces in a row and without a backtick at either end. *)
Theorem SanitizeCommand_clean_unchanged :
  forall y,
    TrimSpace y = y -> ~ In "010"%char y ->
    Contains y (SP ++ SP) = false -> Trim y (str "`") = y ->
    SanitizeCommand y = y.
Proof. exact SanitizeCommand_fixed. Qed.

Lemma SanitizeCommand_clean_unchanged_witness :
  SanitizeCommand (str "find . -name '*.go' -mtime -7")
  = str "find . -name '*.go' -mtime -7".
Proof.
  apply (SanitizeCommand_clean_unchanged
           (str "find . -name '*.go' -mtime -7")).
  - vm_compute. reflexivity.
  - vm_compute. intuition discriminate.
  - vm_compute. reflexivity.
  - vm_compute. reflexivity.
Defined.

(** X18: the sanitizer never invents a byte: every byte of its result is a
    byte of the input, or a space that stands for a line break of the
    input. *)
Theorem SanitizeCommand_bytes_from_input :
  forall x c,
    In c (SanitizeCommand x) ->
    In c x \/ (c = " "%char /\ In "010"%char x).
Proof.
  intros x c H. change (SanitizeCommand x)
    with (TrimSpace
            (collapseSpaces (length (ReplaceAll (beforeReplace x) LF SP))
               (ReplaceAll (beforeReplace x) LF SP))) in H.
  apply TrimSpace_In, collapseSpaces_keeps, replace_LF_In in H.
  pose proof (beforeReplace_piece x) as Hp.
  destruct H as [H | [-> H]]; [left | right; split; [reflexivity |]];
    now apply (pieceOf_In _ _ _ Hp).
Qed.

Lemma SanitizeCommand_bytes_from_input_witness :
  In " "%char (lines ["ls"; "pwd"])
  \/ (" "%char = " "%char /\ In "010"%char (lines ["ls"; "pwd"])).
Proof.
  apply (SanitizeCommand_bytes_from_input (lines ["ls"; "pwd"]) " "%char).
  vm_compute. tauto.
Defined.

(** X19: the result of the sanitizer is never longer than its input. *)
Theorem SanitizeCommand_never_longer :
  forall x, length (SanitizeCommand x) <= length x.
Proof.
  intros x. change (SanitizeCommand x)
    with (TrimSpace
            (collapseSpaces (length (ReplaceAll (beforeReplace x) LF SP))
               (ReplaceAll (beforeReplace x) LF SP))).
  etransitivity; [apply pieceOf_length, TrimSpace_piece |].
  etransitivity; [apply collapseSpaces_length |].
  rewrite replace_LF_length. apply pieceOf_length, beforeReplace_piece.
Qed.

Lemma splitGo_In sep k cur s piece c :
  In piece (splitGo sep k cur s) -> In c piece -> In c cur \/ In c s.
Proof.
  revert k cur. induction s as [| d s IH]; intros k cur; cbn [splitGo].
  - intros [<- | []] H. left. now apply in_rev.
  - destruct k as [| k].
    + destruct (HasPrefix (d :: s) sep).
      * intros [<- | Hp] H.
        -- left. now apply in_rev.
        -- destruct (IH _ _ Hp H) as [[] | Hs]. right. now right.
      * intros Hp H. destruct (IH _ _ Hp H) as [[<- | Hc] | Hs].
        -- right. now left.
        -- now left.
        -- right. now right.
    + intros Hp H. destruct (IH _ _ Hp H) as [Hc | Hs]; [now left |].
      right. now right.
Qed.

Lemma Split_In s piece c : In piece (Split s LF) -> In c piece -> In c s.
Proof.
  intros Hp H. destruct (splitGo_In _ _ _ _ _ _ Hp H) as [[] | Hs].
  exact Hs.
Qed.

Lemma Split_several s : 2 <= length (Split s LF) -> In "010"%char s.
Proof.
  intros Hlen. destruct (in_dec ascii_dec "010"%char s) as [Hin | Hno];
    [exact Hin |].
  unfold Split in Hlen. rewrite splitGo_no_LF in Hlen by exact Hno.
  simpl in Hlen. lia.
Qed.

Lemma Join_In l sep c :
  In c (Join l sep) ->
  (exists e, In e l /\ In c e) \/ (In c sep /\ 2 <= length l).
Proof.
  induction l as [| e l IH]; [intros [] |].
  destruct l as [| e' l].
  - intros H. left. exists e. split; [now left | exact H].
  - rewrite Join_cons by (intros H; discriminate H).
    intros [H | [H | H]%in_app_iff]%in_app_iff.
    + left. exists e. split; [now left | exact H].
    + right. split; [exact H | simpl; lia].
    + destruct (IH H) as [(e0 & He0 & Hc) | [Hc _]].
      * left. exists e0. split; [now right | exact Hc].
      * right. split; [exact Hc | simpl; lia].
Qed.

Lemma Join_length_sublist l1 l2 sep :
  sublist l1 l2 -> length (Join l1 sep) <= length (Join l2 sep).
Proof.
  induction 1 as [| x l1 l2 Hs IH | x l1 l2 Hs IH].
  - lia.
  - destruct l1 as [| a l1].
    + destruct l2 as [| b l2]; [lia |].
      rewrite (Join_cons x (b :: l2)) by (intros H; discriminate H).
      simpl. rewrite length_app. lia.
    + destruct l2 as [| b l2]; [inversion Hs |].
      rewrite (Join_cons x (a :: l1)) by (intros H; discriminate H).
      rewrite (Join_cons x (b :: l2)) by (intros H; discriminate H).
      rewrite !length_app. lia.
  - destruct l2 as [| b l2].
    + inversion Hs; subst. simpl. lia.
    + rewrite (Join_cons x (b :: l2)) by (intros H; discriminate H).
      rewrite !length_app. lia.
Qed.

Lemma sublist_In {A} (l1 l2 : list A) x :
  sublist l1 l2 -> In x l1 -> In x l2.
Proof.
  induction 1 as [| y l1 l2 _ IH | y l1 l2 _ IH]; simpl; tauto.
Qed.

(** X20: the cleanup of the Copilot answer never invents a byte and never
    lengthens the text: every byte of its result is a byte of the
    response, line breaks included. *)
Theorem CleanCopilotResponse_bytes_from_input :
  forall response,
    (forall c, In c (CleanCopilotResponse response) -> In c response)
    /\ length (CleanCopilotResponse response) <= length response.
Proof.
  intros response.
  pose proof (cleanLoop_spec (Split response LF) [] false) as Hloop.
  pose proof (retainedLines_sublist (Split response LF)) as Hsub.
  unfold CleanCopilotResponse. rewrite Hloop. cbn [fst]. split.
  - intros c H. apply TrimSpace_In in H.
    apply (pieceOf_In _ _ _ (Trim_piece _ _)) in H.
    apply Join_In in H as [(e & He & Hc) | [Hc Hlen]].
    + eapply Split_In; [| exact Hc]. eapply sublist_In; eauto.
    + destruct Hc as [<- | []]. apply Split_several.
      apply sublist_length in Hsub. lia.
  - etransitivity; [apply pieceOf_length, TrimSpace_piece |].
    etransitivity; [apply pieceOf_length, Trim_piece |].
    etransitivity; [apply Join_length_sublist, Hsub |].
    now rewrite Join_Split_LF.
Qed.

(** ** The prompt *)

Lemma Contains_self s : Contains s s = true.
Proof.
  assert (H : HasPrefix s s = true).
  { apply HasPrefix_app. exists []. now rewrite app_nil_r. }
  destruct s; simpl in *; [reflexivity | now rewrite H].
Qed.

(** X21: the prompt embeds the query of the user verbatim, whatever bytes
    it holds, and the name of the operating system, which is macOS, Linux
    or Windows for the three known platforms and the identifier of the
    platform itself for every other one; two different queries never give
    the same prompt. *)
Theorem Generate_embeds :
  forall goos query,
    Contains (Generate goos query) query = true
    /\ Contains (Generate goos query) (userOS goos) = true
    /\ (forall query', Generate goos query = Generate goos query' ->
                       query = query')
    /\ userOS (str "darwin") = str "macOS"
    /\ userOS (str "linux") = str "Linux"
    /\ userOS (str "windows") = str "Windows"
    /\ (~ In goos [str "darwin"; str "linux"; str "windows"] ->
        userOS goos = goos).
Proof.
  intros goos query. unfold Generate. repeat apply conj; try reflexivity.
  - apply Contains_app_r, Contains_app_l, Contains_self.
  - rewrite !app_assoc. apply Contains_app_l, Contains_app_r, Contains_self.
  - intros query' H. apply app_inv_head in H. now apply app_inv_tail in H.
  - intros Hno. unfold userOS, gostring_eqb.
    repeat (case_bool_decide;
            [exfalso; apply Hno; subst; simpl; auto |]).
    reflexivity.
Qed.

Lemma Generate_embeds_witness : userOS (str "freebsd") = str "freebsd".
Proof.
  refine (proj2 (proj2 (proj2 (proj2 (proj2 (proj2
    (Generate_embeds (str "freebsd") (str "list files"))))))) _).
  vm_compute. intuition discriminate.
Defined.

(** ** The table *)

Lemma widenCell_length cw ic : length (widenCell cw ic) = length cw.
Proof.
  unfold widenCell. destruct (cw !! ic.1); [| reflexivity].
  destruct (_ <? _)%nat; [apply length_insert | reflexivity].
Qed.

Lemma widenRow_length cw row : length (widenRow cw row) = length cw.
Proof.
  unfold widenRow. generalize (indexed row). intros l. revert cw.
  induction l as [| ic l IH]; intros cw; simpl; [reflexivity |].
  now rewrite IH, widenCell_length.
Qed.

Lemma columnWidths_length headers rows :
  length (columnWidths headers rows) = length headers.
Proof.
  unfold columnWidths.
  assert (H : forall cw, length (fold_left widenRow rows cw) = length cw).
  { induction rows as [| row rows IH]; intros cw; simpl; [reflexivity |].
    now rewrite IH, widenRow_length. }
  now rewrite H, length_map.
Qed.

Lemma printCells_ok cw n i cells :
  (printCells cw n i cells).2 = true
  <-> cells = [] \/ i + length cells <= length cw.
Proof.
  revert i. induction cells as [| cell cells IH]; intros i; simpl.
  - split; auto.
  - destruct (cw !! i) as [w |] eqn:Hw.
    + apply lookup_lt_Some in Hw.
      destruct (printCells cw n (S i) cells) as [out ok] eqn:Hp.
      simpl. specialize (IH (S i)). rewrite Hp in IH. simpl in IH.
      rewrite IH. split.
      * intros [-> | H]; right; simpl; lia.
      * intros [H | H]; [discriminate |].
        destruct cells; [now left | right; simpl in *; lia].
    + apply lookup_ge_None in Hw. simpl. split; [discriminate |].
      intros [H | H]; [discriminate | lia].
Qed.

Lemma printRows_ok cw rows :
  (printRows cw rows).2 = true
  <-> Forall (fun row => length row <= length cw) rows.
Proof.
  induction rows as [| row rows IH]; simpl.
  - split; auto.
  - pose proof (printCells_ok cw (length row) 0 row) as Hrow.
    destruct (printCells cw (length row) 0 row) as [line ok].
    simpl in Hrow. destruct ok.
    + destruct (printRows cw rows) as [out ok']. simpl in *.
      rewrite IH, Forall_cons. split; [| tauto].
      intros H. split; [| exact H].
      destruct (proj1 Hrow eq_refl) as [-> | Hl]; simpl; lia.
    + simpl. split; [discriminate |]. rewrite Forall_cons. intros [Hl _].
      apply Hrow. now right.
Qed.

(** X22: [PrintTable] returns exactly when no row has more cells than
    there are headers; a longer row makes it panic on an index out of
    range. *)
Theorem PrintTable_returns_iff :
  forall headers rows,
    (PrintTable headers rows).2 = true
    <-> Forall (fun row => length row <= length headers) rows.
Proof.
  intros headers rows. unfold PrintTable.
  pose proof (printRows_ok (columnWidths headers rows) rows) as H.
  destruct (printRows (columnWidths headers rows) rows) as [body ok].
  simpl in *. now rewrite H, columnWidths_length.
Qed.

Lemma widenCell_lookup cw k cell i :
  widenCell cw (k, cell) !! i
  = (fun w => if decide (i = k) then Nat.max w (length cell) else w)
      <$> cw !! i.
Proof.
  unfold widenCell. cbn [fst snd].
  destruct (decide (i = k)) as [-> | Hik].
  - destruct (cw !! k) as [w |] eqn:Hw; [| now rewrite Hw].
    destruct (Nat.ltb_spec w (length cell)).
    + rewrite list_lookup_insert_eq by now apply lookup_lt_Some in Hw.
      simpl. f_equal. lia.
    + rewrite Hw. simpl. f_equal. lia.
  - assert (Hcw : match cw !! k with
                  | Some w =>
                      if (w <? length cell)%nat
                      then <[k:=length cell]> cw else cw
                  | None => cw
                  end !! i = cw !! i).
    { destruct (cw !! k); [| reflexivity].
      destruct (_ <? _)%nat; [| reflexivity].
      now rewrite list_lookup_insert_ne by auto. }
    rewrite Hcw. now destruct (cw !! i).
Qed.

Lemma widenRow_from cw row k i :
  fold_left widenCell (combine (seq k (length row)) row) cw !! i
  = (fun w => if (k <=? i)%nat then Nat.max w (cellLen row (i - k)) else w)
      <$> cw !! i.
Proof.
  revert cw k. induction row as [| cell row IH]; intros cw k;
    cbn [length seq combine fold_left].
  - destruct (cw !! i) as [w |]; [| reflexivity]. cbn.
    unfold cellLen. rewrite lookup_nil. f_equal.
    destruct (k <=? i)%nat; lia.
  - rewrite IH, widenCell_lookup. destruct (cw !! i) as [w |];
      [| reflexivity].
    cbn [fmap option_fmap option_map]. f_equal.
    destruct (decide (i = k)) as [-> | Hik].
    + destruct (Nat.leb_spec (S k) k); [lia |].
      destruct (Nat.leb_spec k k); [| lia].
      rewrite Nat.sub_diag. reflexivity.
    + destruct (Nat.leb_spec (S k) i); destruct (Nat.leb_spec k i);
        try lia; try reflexivity.
      replace (i - k) with (S (i - S k)) by lia. reflexivity.
Qed.

Lemma widenRow_lookup cw row i :
  widenRow cw row !! i = (fun w => Nat.max w (cellLen row i)) <$> cw !! i.
Proof.
  unfold widenRow, indexed. rewrite widenRow_from.
  now rewrite Nat.sub_0_r.
Qed.

(** The width of column [i]: the greatest number of bytes of a cell of the
    column, starting from [w]. *)
Lemma columnWidths_lookup headers rows i :
  columnWidths headers rows !! i
  = (fun header =>
       fold_left (fun w row => Nat.max w (cellLen row i)) rows
         (length header))
      <$> headers !! i.
Proof.
  unfold columnWidths.
  assert (H : forall cw,
             fold_left widenRow rows cw !! i
             = (fun w => fold_left (fun w row => Nat.max w (cellLen row i))
                           rows w) <$> cw !! i).
  { induction rows as [| row rows IH]; intros cw; simpl.
    - now destruct (cw !! i).
    - rewrite IH, widenRow_lookup. now destruct (cw !! i). }
  rewrite H, list_lookup_fmap. now destruct (headers !! i).
Qed.

Lemma fold_max_ge rows i w :
  w <= fold_left (fun w row => Nat.max w (cellLen row i)) rows w
  /\ Forall (fun row =>
               cellLen row i
               <= fold_left (fun w row => Nat.max w (cellLen row i)) rows w)
       rows.
Proof.
  revert w. induction rows as [| row rows IH]; intros w; simpl.
  - split; [lia | constructor].
  - destruct (IH (Nat.max w (cellLen row i))) as [H1 H2].
    split; [lia |]. constructor; [lia | exact H2].
Qed.

Lemma fold_max_attained rows i w :
  fold_left (fun w row => Nat.max w (cellLen row i)) rows w = w
  \/ exists row,
       In row rows
       /\ fold_left (fun w row => Nat.max w (cellLen row i)) rows w
          = cellLen row i.
Proof.
  revert w. induction rows as [| row rows IH]; intros w; simpl;
    [now left |].
  destruct (IH (Nat.max w (cellLen row i))) as [H | (r & Hr & H)].
  - rewrite H. destruct (Nat.max_spec w (cellLen row i)) as [[_ ->] | [_ ->]];
      [right; exists row; auto | now left].
  - right. exists r. auto.
Qed.

(** X23: every column is as wide as its widest cell, the header included:
    the width of column [i] is the number of bytes of the header or of a
    cell of that column, and no cell of the column has more bytes. *)
Theorem PrintTable_column_widths :
  forall headers rows i header,
    headers !! i = Some header ->
    exists w,
      columnWidths headers rows !! i = Some w
      /\ length header <= w
      /\ (forall row cell, In row rows -> row !! i = Some cell ->
                           length cell <= w)
      /\ (w = length header
          \/ exists row cell,
               In row rows /\ row !! i = Some cell /\ w = length cell).
Proof.
  intros headers rows i header Hh.
  rewrite columnWidths_lookup, Hh. cbn. eexists. split; [reflexivity |].
  destruct (fold_max_ge rows i (length header)) as [H1 H2].
  split; [exact H1 | split].
  - intros row cell Hin Hc. rewrite Forall_forall in H2.
    apply list_elem_of_In in Hin. specialize (H2 row Hin).
    unfold cellLen in H2 at 1. now rewrite Hc in H2.
  - destruct (fold_max_attained rows i (length header))
      as [H | (row & Hin & H)]; [now left |].
    unfold cellLen in H at 2. destruct (row !! i) as [cell |] eqn:Hc.
    + right. now exists row, cell.
    + left. lia.
Qed.

Lemma PrintTable_column_widths_witness :
  exists w,
    columnWidths [str "Provider"; str "Status"]
      [[str "OpenAI"; str "Not configured"]; [str "Gemini"; str "Ready"]]
    !! 1 = Some w
    /\ length (str "Status") <= w
    /\ (forall row cell,
          In row [[str "OpenAI"; str "Not configured"];
                  [str "Gemini"; str "Ready"]] ->
          row !! 1 = Some cell -> length cell <= w)
    /\ (w = length (str "Status")
        \/ exists row cell,
             In row [[str "OpenAI"; str "Not configured"];
                     [str "Gemini"; str "Ready"]]
             /\ row !! 1 = Some cell /\ w = length cell).
Proof.
  apply (PrintTable_column_widths [str "Provider"; str "Status"]
           [[str "OpenAI"; str "Not configured"]; [str "Gemini"; str "Ready"]]
           1 (str "Status")).
  reflexivity.
Defined.

(** ** Runes and the alignment of the table *)





















(** ** The commands *)







Lemma Getenv_read env h st p :
  sameDescriptors st ->
  (forall v, In v readVariables ->
             Getenv (mkHost env (LookPath h) (Run h)) v = Getenv h v) ->
  In p apiProviders ->
  Getenv (mkHost env (LookPath h) (Run h)) (EnvVar (st p))
  = Getenv h (EnvVar (st p)).
Proof.
  intros Hst Henv Hp.
  destruct (sameDescriptors_fields st p Hst) as (_ & _ & ->).
  apply Henv. unfold readVariables.
  cbn [apiProviders In] in Hp.
  destruct Hp as [<- | [<- | [<- | [<- | []]]]]; cbn; auto 6.
Qed.

Lemma detectLoop_read env h st ps :
  sameDescriptors st ->
  (forall v, In v readVariables ->
             Getenv (mkHost env (LookPath h) (Run h)) v = Getenv h v) ->
  (forall p, In p ps -> In p apiProviders) ->
  detectLoop (mkHost env (LookPath h) (Run h)) ps st = detectLoop h ps st.
Proof.
  intros Hst Henv. induction ps as [| p ps IH]; intros Hps;
    [reflexivity |].
  cbn [detectLoop]. rewrite (Getenv_read env h st p Hst Henv).
  - rewrite IH; [reflexivity |]. intros q Hq. apply Hps. now right.
  - apply Hps. now left.
Qed.

Lemma getByNameLoop_read env h name st ps :
  sameDescriptors st ->
  (forall v, In v readVariables ->
             Getenv (mkHost env (LookPath h) (Run h)) v = Getenv h v) ->
  (forall p, In p ps -> In p apiProviders) ->
  getByNameLoop (mkHost env (LookPath h) (Run h)) name ps st
  = getByNameLoop h name ps st.
Proof.
  intros Hst Henv. induction ps as [| p ps IH]; intros Hps;
    [reflexivity |].
  cbn [getByNameLoop]. rewrite (Getenv_read env h st p Hst Henv).
  - rewrite IH; [reflexivity |]. intros q Hq. apply Hps. now right.
  - apply Hps. now left.
Qed.

(** X28: the code of [runHowto] reads the environment only through the
    four variables of the API keys and [HOWTO_TIMEOUT]: with the same
    search path, the same answers of the [gh] subprocess and the same
    network, two environments that agree on these five give the same
    events, the same error and the same registry.  The code itself never
    looks at another variable, [HOWTO_MODEL], [HOWTO_PROVIDER] and
    [GITHUB_TOKEN] included. *)
Theorem runHowto_reads_five_variables :
  forall ParseDuration goos w env fl args st,
    sameDescriptors st ->
    (forall v, In v readVariables ->
               Getenv (host (withEnviron w env)) v = Getenv (host w) v) ->
    runHowto ParseDuration goos (withEnviron w env) fl args st
    = runHowto ParseDuration goos w fl args st.
Proof.
  intros PD goos w env fl args st Hst Henv.
  assert (Hread : forall v, In v readVariables ->
            Getenv (mkHost env (LookPath (host w)) (Run (host w))) v
            = Getenv (host w) v) by exact Henv.
  assert (Hgh : IsCopilotAvailable
                  (mkHost env (LookPath (host w)) (Run (host w)))
                = IsCopilotAvailable (host w)) by reflexivity.
  assert (Hget : getProvider fl (host (withEnviron w env)) st
                 = getProvider fl (host w) st).
  { unfold getProvider, GetByName, Detect. cbn [withEnviron host].
    rewrite Hgh.
    rewrite (detectLoop_read env (host w) st apiProviders Hst Hread)
      by auto.
    rewrite (getByNameLoop_read env (host w) (providerFlag fl) st
               apiProviders Hst Hread) by auto.
    reflexivity. }
  assert (Htime : forall flag,
            GetTimeout PD (host (withEnviron w env)) flag
            = GetTimeout PD (host w) flag).
  { intros flag. unfold GetTimeout. cbn [withEnviron host].
    rewrite Hread; [reflexivity |]. unfold readVariables. cbn. auto 6. }
  unfold runHowto. rewrite Hget, Htime. reflexivity.
Qed.

Lemma runHowto_reads_five_variables_witness :
  runHowto testParseDuration (str "linux")
    (withEnviron
       (envWorld [("OPENAI_API_KEY", "test-key"); ("HOWTO_TIMEOUT", "45s")]
          invalidKeyNet)
       (list_to_map
          [(str "HOWTO_TIMEOUT", str "45s");
           (str "HOWTO_PROVIDER", str "Gemini");
           (str "HOWTO_MODEL", str "gpt-4o-mini");
           (str "GITHUB_TOKEN", str "ghp_test");
           (str "OPENAI_API_KEY", str "test-key")]))
    (mkFlags [] [] true 0) [str "list"; str "files"] initialStore
  = runHowto testParseDuration (str "linux")
      (envWorld [("OPENAI_API_KEY", "test-key"); ("HOWTO_TIMEOUT", "45s")]
         invalidKeyNet)
      (mkFlags [] [] true 0) [str "list"; str "files"] initialStore.
Proof.
  apply (runHowto_reads_five_variables testParseDuration (str "linux")
           (envWorld
              [("OPENAI_API_KEY", "test-key"); ("HOWTO_TIMEOUT", "45s")]
              invalidKeyNet)).
  - exact sameDescriptors_initial.
  - intros v Hv. cbn [readVariables In] in Hv.
    destruct Hv as [<- | [<- | [<- | [<- | [<- | []]]]]];
      vm_compute; reflexivity.
Defined.
